(** * chibivue: the virtual-node renderer

    A shallow embedding of the render/patch engine of
    [packages/runtime-core/renderer.ts], in its two revisions: the earlier one
    (text and element nodes only) and the later one (with component nodes).

    JavaScript objects are mutated in place by the engine ([n2.el = ...],
    [children[i] = ...]).  The embedding passes values: every engine function
    returns the new contents of the object it mutates, and the caller stores it
    where the source holds the reference.  Host operations are threaded through
    an explicit state, together with the list of host calls made so far. *)

From Stdlib Require Import ZArith.
From stdpp Require Import base tactics option list strings gmap.

Local Open Scope string_scope.
Local Open Scope list_scope.

(** ** JavaScript values held by props *)

(** The values a prop can hold ([any] in the source).  Objects and functions
    are represented by their identity. *)
Inductive value : Type :=
  | VUndefined
  | VNull
  | VBool (b : bool)
  | VNumber (z : Z)
  | VNaN
  | VString (s : string)
  | VObject (ref : nat).

#[global] Instance value_eq_dec : EqDecision value.
Proof. solve_decision. Defined.

(** [a === b]: equality of primitives by value, of objects by identity;
    [NaN] is not equal to itself. *)
Definition strict_eq (a b : value) : bool :=
  match a, b with
  | VNaN, _ | _, VNaN => false
  | _, _ => bool_decide (a = b)
  end.

(** [a !== b] *)
Definition strict_ne (a b : value) : bool := negb (strict_eq a b).

(** A prop object: its own enumerable keys in [for ... in] order, each with
    its value. *)
Definition VNodeProps : Type := list (string * value).

(** [for (const key in props)] *)
Definition prop_keys (p : VNodeProps) : list string := p.*1.

(** [props[key]]: [undefined] when the key is absent. *)
Fixpoint prop_get (p : VNodeProps) (key : string) : value :=
  match p with
  | [] => VUndefined
  | (k, v) :: rest => if decide (k = key) then v else prop_get rest key
  end.

(** ** Virtual nodes *)

(** A host node is an object reference; it is represented by a handle. *)
Definition HostNode : Type := nat.

(** [vnode.type]: the [Text] marker, a tag name, or a component definition
    (an object, represented by its identity; see [Component] below). *)
Inductive VNodeTypes : Type :=
  | Text
  | Tag (tag : string)
  | Comp (c : nat).

#[global] Instance VNodeTypes_eq_dec : EqDecision VNodeTypes.
Proof. solve_decision. Defined.

Inductive VNodeChildOf (V : Type) : Type :=
  | RawText (text : string)
  | ChildVNode (v : V).
Arguments RawText {V} text.
Arguments ChildVNode {V} v.

Inductive ChildrenOf (V : Type) : Type :=
  | ChildrenText (text : string)
  | ChildrenArray (items : list (VNodeChildOf V)).
Arguments ChildrenText {V} text.
Arguments ChildrenArray {V} items.

(** The [VNode] interface.  [el] is [None] while it is [undefined]; [component]
    is [None] while it is [null]; [props] is [None] when it is [null]. *)
#[warnings="-register-all"]
Inductive VNode : Type := mkVNode {
  type : VNodeTypes;
  props : option VNodeProps;
  children : ChildrenOf VNode;
  el : option HostNode;
  component : option nat
}.

Abbreviation VNodeChild := (VNodeChildOf VNode).
Abbreviation VNodeNormalizedChildren := (ChildrenOf VNode).

Definition set_el (v : VNode) (e : option HostNode) : VNode :=
  mkVNode (type v) (props v) (children v) e (component v).

Definition set_children (v : VNode) (c : VNodeNormalizedChildren) : VNode :=
  mkVNode (type v) (props v) c (el v) (component v).

Definition set_component (v : VNode) (i : option nat) : VNode :=
  mkVNode (type v) (props v) (children v) (el v) i.

(** Modelled from the spec: [createVNode] of [vnode.ts], which is not among
    the sources.  A VNode is created with no host reference and no instance;
    both are attached once resolved. *)
Definition createVNode (t : VNodeTypes) (p : option VNodeProps)
    (c : VNodeNormalizedChildren) : VNode :=
  mkVNode t p c None None.

(** Modelled from the spec: [normalizeVNode] of [vnode.ts], which is not among
    the sources.  Raw text becomes a [Text]-type VNode; a VNode is returned
    with the structure it has. *)
Definition normalizeVNode (child : VNodeChild) : VNode :=
  match child with
  | ChildVNode v => v
  | RawText s => createVNode Text None (ChildrenText s)
  end.

(** What the engine can find in the place of the old VNode.  The parameter is
    typed [VNode | null]; [c1[i]] also yields [undefined] past the end of the
    old child list, and a raw string where the old list was never normalized
    or was a text payload. *)
Inductive OldVNode : Type :=
  | OldNull
  | OldUndefined
  | OldRaw (text : string)
  | OldNode (v : VNode).

(** [n1 == null] *)
Definition is_nullish (n1 : OldVNode) : bool :=
  match n1 with
  | OldNull | OldUndefined => true
  | _ => false
  end.

(** [n1 === null] *)
Definition is_null (n1 : OldVNode) : bool :=
  match n1 with
  | OldNull => true
  | _ => false
  end.

(** ** Components *)

(** The render function that [setup] returns.  It reads the instance's props
    object, which is updated in place, every time it runs. *)
Definition InternalRenderFunction : Type := VNodeProps -> VNodeChild.

(** A component definition: an optional [setup], given the props. *)
Record Component : Type := mkComponent {
  setup : option (VNodeProps -> InternalRenderFunction)
}.

(** [ComponentInternalInstance].  [i_update] is [None] until the render effect
    is set up; it then holds what the closure [componentUpdateFn] captured, the
    container.  The closure also captures [initialVNode], which is the object
    [i_vnode] refers to for as long as [i_isMounted] is false, the only time
    the closure uses it. *)
Record ComponentInternalInstance : Type := mkInstance {
  i_type : VNodeTypes;
  i_vnode : VNode;
  i_next : option VNode;
  i_props : VNodeProps;
  i_render : option InternalRenderFunction;
  i_subTree : option VNode;
  i_isMounted : bool;
  i_update : option (option HostNode)
}.

(** ** The host adapter *)

(** The calls the engine makes on the host adapter.  Where the source casts
    ([type as string], [n2.children as string]) the value is passed as it is. *)
Inductive HostOp : Type :=
  | OpPatchProp (node : option HostNode) (key : string) (v : value)
  | OpCreateElement (t : VNodeTypes)
  | OpCreateText (text : VNodeNormalizedChildren)
  | OpSetText (node : option HostNode) (text : VNodeNormalizedChildren)
  | OpSetElementText (node : option HostNode) (text : VNodeNormalizedChildren)
  | OpInsert (child : option HostNode) (parent : option HostNode)
  | OpParentNode (node : option HostNode).

(** [RendererOptions]: the adapter's operations over a host state [H].  The
    engine never passes an anchor to [insert]. *)
Record RendererOptions (H : Type) : Type := mkRendererOptions {
  patchProp : option HostNode -> string -> value -> H -> H;
  createElement : VNodeTypes -> H -> HostNode * H;
  createText : VNodeNormalizedChildren -> H -> HostNode * H;
  setText : option HostNode -> VNodeNormalizedChildren -> H -> H;
  setElementText : option HostNode -> VNodeNormalizedChildren -> H -> H;
  insert : option HostNode -> option HostNode -> H -> H;
  parentNode : option HostNode -> H -> option HostNode
}.
Arguments patchProp {H} _ _ _ _ _.
Arguments createElement {H} _ _ _.
Arguments createText {H} _ _ _.
Arguments setText {H} _ _ _ _.
Arguments setElementText {H} _ _ _ _.
Arguments insert {H} _ _ _ _.
Arguments parentNode {H} _ _ _.

(** ** State and results *)

Inductive Exn : Type := TypeError.

(** The outcome of a run: a value, a thrown exception, or the recursion bound
    of the model reached. *)
Inductive Result (A : Type) : Type :=
  | Ok (a : A)
  | Throw (e : Exn)
  | OutOfFuel.
Arguments Ok {A} a.
Arguments Throw {A} e.
Arguments OutOfFuel {A}.

(** The host state, the host calls made so far (oldest first) and the
    component instances created so far (an instance is referred to by its
    index). *)
Record State (H : Type) : Type := mkState {
  host : H;
  trace : list HostOp;
  instances : list ComponentInternalInstance
}.
Arguments mkState {H} _ _ _.
Arguments host {H} _.
Arguments trace {H} _.
Arguments instances {H} _.

Definition M (H A : Type) : Type := State H -> Result A * State H.

Definition ret {H A} (a : A) : M H A := fun s => (Ok a, s).

Definition bind {H A B} (c : M H A) (k : A -> M H B) : M H B :=
  fun s =>
    match c s with
    | (Ok a, s') => k a s'
    | (Throw e, s') => (Throw e, s')
    | (OutOfFuel, s') => (OutOfFuel, s')
    end.

Definition throw {H A} (e : Exn) : M H A := fun s => (Throw e, s).

Definition out_of_fuel {H A} : M H A := fun s => (OutOfFuel, s).

Declare Scope renderer_scope.
Delimit Scope renderer_scope with renderer.
Notation "'let*' x ':=' c 'in' k" := (bind c (fun x => k))
  (at level 10, x name, c at level 100, k at level 200,
   format "'[v' 'let*'  x  ':='  c  'in' '/' k ']'") : renderer_scope.
Notation "c ;; k" := (bind c (fun _ => k))
  (at level 100, k at level 200, right associativity) : renderer_scope.
Local Open Scope renderer_scope.

(** ** Reading the old VNode *)

(** [a !== b] on [children] values, the new one against the old one
    ([None]: [undefined]).  Strings compare by value.  An array is an object
    made by its own render pass, so it is never identical to another value. *)
Definition children_ne (c2 : VNodeNormalizedChildren)
    (c1 : option VNodeNormalizedChildren) : bool :=
  match c2, c1 with
  | ChildrenText a, Some (ChildrenText b) => negb (bool_decide (a = b))
  | _, _ => true
  end.

(** [c1[i]] for an old child list that is there: an element, a one-character
    string of a text payload, or [undefined] past the end. *)
Definition children_index (c1 : VNodeNormalizedChildren) (i : nat) : OldVNode :=
  match c1 with
  | ChildrenText s =>
      match String.get i s with
      | Some a => OldRaw (String a EmptyString)
      | None => OldUndefined
      end
  | ChildrenArray items =>
      match items !! i with
      | Some (RawText s) => OldRaw s
      | Some (ChildVNode v) => OldNode v
      | None => OldUndefined
      end
  end.

Section Access.
Context {H : Type}.

(** [n1.el]: a [TypeError] on [null] and [undefined], [undefined] on a
    string. *)
Definition old_el (n1 : OldVNode) : M H (option HostNode) :=
  match n1 with
  | OldNull | OldUndefined => throw TypeError
  | OldRaw _ => ret None
  | OldNode v => ret (el v)
  end.

(** [n1.children] *)
Definition old_children (n1 : OldVNode) : M H (option VNodeNormalizedChildren) :=
  match n1 with
  | OldNull | OldUndefined => throw TypeError
  | OldRaw _ => ret None
  | OldNode v => ret (Some (children v))
  end.

(** [n1.props?.[key]] *)
Definition old_prop (n1 : OldVNode) (key : string) : M H value :=
  match n1 with
  | OldNull | OldUndefined => throw TypeError
  | OldRaw _ => ret VUndefined
  | OldNode v =>
      match props v with
      | Some p => ret (prop_get p key)
      | None => ret VUndefined
      end
  end.

(** [n1.component] *)
Definition old_component (n1 : OldVNode) : M H (option nat) :=
  match n1 with
  | OldNull | OldUndefined => throw TypeError
  | OldRaw _ => ret None
  | OldNode v => ret (component v)
  end.

(** [c1[i]]: a [TypeError] when [c1] is [undefined]. *)
Definition old_index (c1 : option VNodeNormalizedChildren) (i : nat) : M H OldVNode :=
  match c1 with
  | None => throw TypeError
  | Some c => ret (children_index c i)
  end.

(** A counted loop: [body i acc] for [i = start, start + 1, ...], [n]
    times, stopping at the first failure. *)
Fixpoint for_loop {A} (n start : nat) (body : nat -> A -> M H A) (acc : A) : M H A :=
  match n with
  | 0 => ret acc
  | S n' => let* acc' := body start acc in for_loop n' (S start) body acc'
  end.

(** [for (const key in props) body(key)] *)
Fixpoint for_in (keys : list string) (body : string -> M H unit) : M H unit :=
  match keys with
  | [] => ret tt
  | key :: rest => body key ;; for_in rest body
  end.
End Access.

(** ** The functions that both revisions share

    [createRenderer] reads the operations it uses off [options]; the functions
    it defines are the same, token for token, in the two revisions up to
    [processText].  They call [patch], which each revision defines its own
    way: it is a parameter here. *)

Definition PatchFn (H : Type) : Type :=
  OldVNode -> VNode -> option HostNode -> M H VNode.

Section Shared.
Context {H : Type} (options : RendererOptions H).

Definition log (op : HostOp) (f : H -> H) : M H unit :=
  fun s => (Ok tt, mkState (f (host s)) (trace s ++ [op]) (instances s)).

Definition hostPatchProp (node : option HostNode) (key : string) (v : value) : M H unit :=
  log (OpPatchProp node key v) (patchProp options node key v).

Definition hostCreateElement (t : VNodeTypes) : M H HostNode :=
  fun s =>
    let '(node, h) := createElement options t (host s) in
    (Ok node, mkState h (trace s ++ [OpCreateElement t]) (instances s)).

Definition hostCreateText (text : VNodeNormalizedChildren) : M H HostNode :=
  fun s =>
    let '(node, h) := createText options text (host s) in
    (Ok node, mkState h (trace s ++ [OpCreateText text]) (instances s)).

Definition hostSetText (node : option HostNode) (text : VNodeNormalizedChildren) : M H unit :=
  log (OpSetText node text) (setText options node text).

Definition hostInsert (child parent : option HostNode) : M H unit :=
  log (OpInsert child parent) (insert options child parent).

Variable patch : PatchFn H.

(** [processText]: returns [n2] as the function leaves it. *)
Definition processText (n1 : OldVNode) (n2 : VNode) (container : option HostNode)
    : M H VNode :=
  if is_nullish n1 then
    let* node := hostCreateText (children n2) in
    let n2 := set_el n2 (Some node) in
    hostInsert (Some node) container ;;
    ret n2
  else
    let* el := old_el n1 in
    let n2 := set_el n2 el in
    let* c1 := old_children n1 in
    if children_ne (children n2) c1 then
      hostSetText el (children n2) ;; ret n2
    else ret n2.

(** The body of the loop of [mountChildren] on an array. *)
Definition mountChildren_step (container : option HostNode) (i : nat)
    (children : list VNodeChild) : M H (list VNodeChild) :=
  match children !! i with
  | None => ret children
  | Some c =>
      let child := normalizeVNode c in
      let children := <[i := ChildVNode child]> children in
      let* child := patch OldNull child container in
      ret (<[i := ChildVNode child]> children)
  end.

(** [mountChildren]: returns the child list as the function leaves it.
    [vnode.children] is cast to an array; on a text payload, [children[i]]
    is a character and the assignment to it throws (module code is strict),
    when there is one. *)
Definition mountChildren (children : VNodeNormalizedChildren)
    (container : option HostNode) : M H VNodeNormalizedChildren :=
  match children with
  | ChildrenText s =>
      if decide (String.length s = 0) then ret children else throw TypeError
  | ChildrenArray items =>
      let* items := for_loop (length items) 0 (mountChildren_step container) items in
      ret (ChildrenArray items)
  end.

(** [mountElement]: returns [vnode] as the function leaves it. *)
Definition mountElement (vnode : VNode) (container : option HostNode) : M H VNode :=
  let* el := hostCreateElement (type vnode) in
  let vnode := set_el vnode (Some el) in
  let* cs := mountChildren (children vnode) (Some el) in
  let vnode := set_children vnode cs in
  match props vnode with
  | Some p => for_in (prop_keys p) (fun key => hostPatchProp (Some el) key (prop_get p key))
  | None => ret tt
  end ;;
  hostInsert (Some el) container ;;
  ret vnode.

(** The body of the loop of [patchChildren] on an array. *)
Definition patchChildren_step (c1 : option VNodeNormalizedChildren)
    (container : option HostNode) (i : nat) (c2 : list VNodeChild)
    : M H (list VNodeChild) :=
  match c2 !! i with
  | None => ret c2
  | Some c =>
      let child := normalizeVNode c in
      let c2 := <[i := ChildVNode child]> c2 in
      let* old := old_index c1 i in
      let* child := patch old child container in
      ret (<[i := ChildVNode child]> c2)
  end.

(** [patchChildren]: returns [n2.children] as the function leaves it. *)
Definition patchChildren (n1 : OldVNode) (n2 : VNode) (container : option HostNode)
    : M H VNodeNormalizedChildren :=
  let* c1 := old_children n1 in
  match children n2 with
  | ChildrenText s =>
      if decide (String.length s = 0) then ret (children n2) else throw TypeError
  | ChildrenArray c2 =>
      let* c2 := for_loop (length c2) 0 (patchChildren_step c1 container) c2 in
      ret (ChildrenArray c2)
  end.

(** [patchElement]: returns [n2] as the function leaves it.  In the test
    [props[key] !== n1.props?.[key] ?? {}] the operator [!==] binds tighter
    than [??]: the comparison is made first, its result is never nullish, and
    the [{}] is never used. *)
Definition patchElement (n1 : OldVNode) (n2 : VNode) : M H VNode :=
  let* el := old_el n1 in
  let n2 := set_el n2 el in
  let p := props n2 in
  let* cs := patchChildren n1 n2 el in
  let n2 := set_children n2 cs in
  for_in (from_option prop_keys [] p) (fun key =>
    let v := prop_get (default [] p) key in
    let* old := old_prop n1 key in
    if strict_ne v old then hostPatchProp el key v else ret tt) ;;
  ret n2.

(** [processElement] *)
Definition processElement (n1 : OldVNode) (n2 : VNode) (container : option HostNode)
    : M H VNode :=
  if is_null n1 then mountElement n2 container else patchElement n1 n2.
End Shared.

(** ** The earlier revision: [src/packages/runtime-core/renderer.ts] *)

Module Earlier.
Section Renderer.
Context {H : Type} (options : RendererOptions H).

(** One call of [patch], its nested calls being made through [rec]: every
    type that is not the [Text] marker is taken for an element. *)
Definition patch_body (rec : PatchFn H) : PatchFn H :=
  fun n1 n2 container =>
    match type n2 with
    | Text => processText options n1 n2 container
    | _ => processElement options rec n1 n2 container
    end.

(** [patch], with a bound on the depth of the nested calls. *)
Fixpoint patch (fuel : nat) : PatchFn H :=
  match fuel with
  | 0 => fun _ _ _ => out_of_fuel
  | S fuel' => patch_body (patch fuel')
  end.
End Renderer.
End Earlier.

(** ** The later revision: [src/unnamed/part_000] *)

(** Writes to the fields of an instance. *)
Definition with_vnode (v : VNode) (i : ComponentInternalInstance) :=
  mkInstance (i_type i) v (i_next i) (i_props i) (i_render i) (i_subTree i)
    (i_isMounted i) (i_update i).
Definition with_next (n : option VNode) (i : ComponentInternalInstance) :=
  mkInstance (i_type i) (i_vnode i) n (i_props i) (i_render i) (i_subTree i)
    (i_isMounted i) (i_update i).
Definition with_props (p : VNodeProps) (i : ComponentInternalInstance) :=
  mkInstance (i_type i) (i_vnode i) (i_next i) p (i_render i) (i_subTree i)
    (i_isMounted i) (i_update i).
Definition with_render (r : option InternalRenderFunction) (i : ComponentInternalInstance) :=
  mkInstance (i_type i) (i_vnode i) (i_next i) (i_props i) r (i_subTree i)
    (i_isMounted i) (i_update i).
Definition with_subTree (t : option VNode) (i : ComponentInternalInstance) :=
  mkInstance (i_type i) (i_vnode i) (i_next i) (i_props i) (i_render i) t
    (i_isMounted i) (i_update i).
Definition with_isMounted (b : bool) (i : ComponentInternalInstance) :=
  mkInstance (i_type i) (i_vnode i) (i_next i) (i_props i) (i_render i) (i_subTree i)
    b (i_update i).
Definition with_update (u : option (option HostNode)) (i : ComponentInternalInstance) :=
  mkInstance (i_type i) (i_vnode i) (i_next i) (i_props i) (i_render i) (i_subTree i)
    (i_isMounted i) u.

(** [props[key] = v] *)
Fixpoint prop_set (p : VNodeProps) (key : string) (v : value) : VNodeProps :=
  match p with
  | [] => [(key, v)]
  | (k, x) :: rest =>
      if decide (k = key) then (k, v) :: rest else (k, x) :: prop_set rest key v
  end.

Section Instances.
Context {H : Type}.

(** Reads the instance behind a reference; a reference to nothing does not
    occur in a run that starts from VNodes without instances. *)
Definition get_instance (id : nat) : M H ComponentInternalInstance :=
  fun s =>
    match instances s !! id with
    | Some i => (Ok i, s)
    | None => (Throw TypeError, s)
    end.

(** Writes to the instance behind a reference. *)
Definition modify_instance (id : nat)
    (f : ComponentInternalInstance -> ComponentInternalInstance) : M H unit :=
  fun s => (Ok tt, mkState (host s) (trace s) (alter f id (instances s))).

(** Modelled from the spec: [createComponentInstance] of [component.ts],
    which is not among the sources.  It allocates a fresh instance for the
    VNode: not mounted, nothing pending, no render function, no subtree and
    no effect yet. *)
Definition createComponentInstance (vnode : VNode) : M H nat :=
  fun s =>
    let instance := mkInstance (type vnode) vnode None [] None None false None in
    (Ok (length (instances s)),
     mkState (host s) (trace s) (instances s ++ [instance])).

(** Modelled from the spec: [initProps] of [componentProps.ts], which is not
    among the sources.  The initial props are resolved from the VNode's prop
    set. *)
Definition initProps (id : nat) (rawProps : option VNodeProps) : M H unit :=
  modify_instance id (with_props (default [] rawProps)).

(** Modelled from the spec: [updateProps] of [componentProps.ts], which is
    not among the sources.  The new prop values are merged into the props
    object the instance has. *)
Definition updateProps (id : nat) (rawProps : option VNodeProps) : M H unit :=
  modify_instance id (fun i =>
    with_props
      (fold_left (fun acc kv => prop_set acc kv.1 kv.2) (default [] rawProps) (i_props i))
      i).

(** Modelled from the spec: [ReactiveEffect.run] of the reactivity package,
    which is not among the sources.  It runs the computation, and a failure
    of the computation propagates to the caller; the dependencies it records
    on the way are not represented. *)
Definition effect_run {A} (fn : M H A) : M H A := fn.

(** Calling a value that may not be a function. *)
Definition call_render (r : option InternalRenderFunction) (p : VNodeProps)
    : M H VNodeChild :=
  match r with
  | Some f => ret (f p)
  | None => throw TypeError
  end.
End Instances.

Module Later.
Section Renderer.
Context {H : Type} (options : RendererOptions H).

(** The component definitions: [Comp c] is the object [components c]. *)
Variable components : nat -> Component.

Definition hostParentNode (node : option HostNode) : M H (option HostNode) :=
  fun s =>
    (Ok (parentNode options node (host s)),
     mkState (host s) (trace s ++ [OpParentNode node]) (instances s)).

(** [(initialVNode.type as Component).setup] *)
Definition type_setup (t : VNodeTypes) : option (VNodeProps -> InternalRenderFunction) :=
  match t with
  | Comp c => setup (components c)
  | _ => None
  end.

Variable patch : PatchFn H.

(** [componentUpdateFn], the closure of [setupRenderEffect] over [instance]
    and [container].  [initialVNode.el = subTree.el] writes to the object
    that [instance.vnode] refers to: [instance.vnode] is replaced only on the
    other branch, which needs [isMounted]. *)
Definition componentUpdateFn (id : nat) (container : option HostNode) : M H unit :=
  let* instance := get_instance id in
  let render := i_render instance in
  if negb (i_isMounted instance) then
    let* r := call_render render (i_props instance) in
    let subTree := normalizeVNode r in
    modify_instance id (with_subTree (Some subTree)) ;;
    let* subTree := patch OldNull subTree container in
    modify_instance id (with_subTree (Some subTree)) ;;
    modify_instance id (fun i => with_vnode (set_el (i_vnode i) (el subTree)) i) ;;
    modify_instance id (with_isMounted true)
  else
    let next := i_next instance in
    let vnode := i_vnode instance in
    match next with
    | Some next =>
        let next := set_component (set_el next (el vnode)) (Some id) in
        modify_instance id (with_vnode next) ;;
        modify_instance id (with_next None) ;;
        updateProps id (props next)
    | None => ret tt
    end ;;
    let* instance := get_instance id in
    let prevTree := i_subTree instance in
    let* r := call_render render (i_props instance) in
    let nextTree := normalizeVNode r in
    modify_instance id (with_subTree (Some nextTree)) ;;
    let* prevEl := old_el (from_option OldNode OldNull prevTree) in
    let* parent := hostParentNode prevEl in
    let* nextTree := patch (from_option OldNode OldNull prevTree) nextTree parent in
    modify_instance id (with_subTree (Some nextTree)) ;;
    modify_instance id (fun i => with_vnode (set_el (i_vnode i) (el nextTree)) i).

(** [instance.update()]: the trigger runs the effect, which runs
    [componentUpdateFn]. *)
Definition instance_update (id : nat) : M H unit :=
  let* instance := get_instance id in
  match i_update instance with
  | Some container => effect_run (componentUpdateFn id container)
  | None => throw TypeError
  end.

(** [setupRenderEffect] *)
Definition setupRenderEffect (id : nat) (container : option HostNode) : M H unit :=
  modify_instance id (with_update (Some container)) ;;
  effect_run (componentUpdateFn id container).

(** [mountComponent]: returns [initialVNode] as the function leaves it,
    which is the object [instance.vnode] refers to. *)
Definition mountComponent (initialVNode : VNode) (container : option HostNode)
    : M H VNode :=
  let* id := createComponentInstance initialVNode in
  modify_instance id (with_vnode (set_component initialVNode (Some id))) ;;
  let* instance := get_instance id in
  initProps id (props (i_vnode instance)) ;;
  match type_setup (type initialVNode) with
  | Some f =>
      let* instance := get_instance id in
      modify_instance id (with_render (Some (f (i_props instance))))
  | None => ret tt
  end ;;
  setupRenderEffect id container ;;
  let* instance := get_instance id in
  ret (i_vnode instance).

(** [updateComponent]: returns [n2] as the function leaves it.  [n2] is the
    object [instance.next] refers to, until the update branch of
    [componentUpdateFn] makes it [instance.vnode]. *)
Definition updateComponent (n1 : OldVNode) (n2 : VNode) : M H VNode :=
  let* c := old_component n1 in
  let n2 := set_component n2 c in
  match c with
  | None => throw TypeError
  | Some id =>
      get_instance id ;;
      modify_instance id (with_next (Some n2)) ;;
      instance_update id ;;
      let* instance := get_instance id in
      ret (default (i_vnode instance) (i_next instance))
  end.

(** [processComponent] *)
Definition processComponent (n1 : OldVNode) (n2 : VNode) (container : option HostNode)
    : M H VNode :=
  if is_null n1 then mountComponent n2 container else updateComponent n1 n2.

(** One call of [patch], its nested calls being made through the [patch]
    above. *)
Definition patch_body (n1 : OldVNode) (n2 : VNode) (container : option HostNode)
    : M H VNode :=
  match type n2 with
  | Text => processText options n1 n2 container
  | Tag _ => processElement options patch n1 n2 container
  | Comp _ => processComponent n1 n2 container
  end.
End Renderer.

Section Fuel.
Context {H : Type} (options : RendererOptions H).
Variable components : nat -> Component.

(** [patch], with a bound on the depth of the nested calls. *)
Fixpoint patch (fuel : nat) : PatchFn H :=
  match fuel with
  | 0 => fun _ _ _ => out_of_fuel
  | S fuel' => patch_body options components (patch fuel')
  end.

(** [render], the root render function that [createRenderer] returns. *)
Definition render (fuel : nat) (rootComponent : nat) (container : option HostNode)
    : M H VNode :=
  let vnode := createVNode (Comp rootComponent) (Some []) (ChildrenArray []) in
  patch fuel OldNull vnode container.
End Fuel.
End Later.

(** ** Children, one position after the other

    What the loops of [mountChildren] and [patchChildren] are meant to do, said
    on the list of new children: the child at index [i] is normalized and
    patched against what [old_at i] finds, from the first index to the last,
    stopping at the first failure. *)

Section Positional.
Context {H : Type}.

Fixpoint patch_each (patch : PatchFn H) (old_at : nat -> M H OldVNode)
    (container : option HostNode) (i : nat) (news : list VNodeChild)
    : M H (list VNodeChild) :=
  match news with
  | [] => ret []
  | c :: rest =>
      let* old := old_at i in
      let* child := patch old (normalizeVNode c) container in
      let* rest' := patch_each patch old_at container (S i) rest in
      ret (ChildVNode child :: rest')
  end.
End Positional.

(** ** Trees without components *)

(** No node of the tree has a component definition for its type. *)
Fixpoint component_free (v : VNode) : bool :=
  match type v with
  | Comp _ => false
  | _ =>
      match children v with
      | ChildrenText _ => true
      | ChildrenArray items =>
          (fix all (l : list VNodeChild) : bool :=
             match l with
             | [] => true
             | RawText _ :: rest => all rest
             | ChildVNode c :: rest => component_free c && all rest
             end) items
      end
  end.

(** The height of a tree: the number of nested [patch] calls it takes. *)
Fixpoint height (v : VNode) : nat :=
  S (match children v with
     | ChildrenText _ => 0
     | ChildrenArray items =>
         (fix highest (l : list VNodeChild) : nat :=
            match l with
            | [] => 0
            | RawText _ :: rest => Nat.max 1 (highest rest)
            | ChildVNode c :: rest => Nat.max (height c) (highest rest)
            end) items
     end).

(** ** A host for the examples: a document of numbered nodes *)

Record Dom : Type := mkDom {
  dom_fresh : nat;
  dom_parent : list (nat * nat);
  dom_text : list (nat * VNodeNormalizedChildren);
  dom_attrs : list (nat * string * value)
}.

Definition dom_empty : Dom := mkDom 1 [] [] [].

Fixpoint dom_lookup_parent (l : list (nat * nat)) (n : nat) : option nat :=
  match l with
  | [] => None
  | (c, p) :: rest => if decide (c = n) then Some p else dom_lookup_parent rest n
  end.

Definition dom_options : RendererOptions Dom := {|
  patchProp node key v d :=
    match node with
    | Some n => mkDom (dom_fresh d) (dom_parent d) (dom_text d) ((n, key, v) :: dom_attrs d)
    | None => d
    end;
  createElement _ d :=
    (dom_fresh d, mkDom (S (dom_fresh d)) (dom_parent d) (dom_text d) (dom_attrs d));
  createText text d :=
    (dom_fresh d,
     mkDom (S (dom_fresh d)) (dom_parent d) ((dom_fresh d, text) :: dom_text d) (dom_attrs d));
  setText node text d :=
    match node with
    | Some n => mkDom (dom_fresh d) (dom_parent d) ((n, text) :: dom_text d) (dom_attrs d)
    | None => d
    end;
  setElementText node text d :=
    match node with
    | Some n => mkDom (dom_fresh d) (dom_parent d) ((n, text) :: dom_text d) (dom_attrs d)
    | None => d
    end;
  insert child parent d :=
    match child, parent with
    | Some c, Some p => mkDom (dom_fresh d) ((c, p) :: dom_parent d) (dom_text d) (dom_attrs d)
    | _, _ => d
    end;
  parentNode node d :=
    match node with
    | Some n => dom_lookup_parent (dom_parent d) n
    | None => None
    end
|}.

(** The state before anything is rendered: the container is node 0. *)
Definition dom_start : State Dom := mkState dom_empty [] [].

(** A state in which the nodes below 10 are taken. *)
Definition dom_later : State Dom := mkState (mkDom 10 [] [] []) [] [].

(** ** What a patch reads of an old VNode that is there *)

(** The old payload, [n1.children]: [undefined] on a string. *)
Definition old_payload (n1 : OldVNode) : option VNodeNormalizedChildren :=
  match n1 with
  | OldNode v => Some (children v)
  | _ => None
  end.

(** The old host reference, [n1.el]: [undefined] on a string. *)
Definition old_host_ref (n1 : OldVNode) : option HostNode :=
  match n1 with
  | OldNode v => el v
  | _ => None
  end.

(** The old value of a prop, [n1.props?.[key]]. *)
Definition old_prop_value (n1 : OldVNode) (key : string) : value :=
  match n1 with
  | OldNode v => prop_get (default [] (props v)) key
  | _ => VUndefined
  end.

(** A text VNode, as [normalizeVNode] makes it, with a host reference. *)
Definition text_vnode (s : string) (e : option HostNode) : VNode :=
  mkVNode Text None (ChildrenText s) e None.

(** The [patchProp] calls for the keys [keys] of the props [p] on [node], in
    the order of the keys. *)
Definition prop_ops (node : option HostNode) (p : VNodeProps) (keys : list string)
    : list HostOp :=
  map (fun key => OpPatchProp node key (prop_get p key)) keys.

(** The host after these calls. *)
Definition prop_host {H} (options : RendererOptions H) (node : option HostNode)
    (p : VNodeProps) (keys : list string) (h : H) : H :=
  fold_left (fun h key => patchProp options node key (prop_get p key) h) keys h.

(** The keys of the new props [p] whose value is [!==] to what the old VNode
    has for them. *)
Definition changed_keys (n1 : OldVNode) (p : VNodeProps) : list string :=
  List.filter (fun key => strict_ne (prop_get p key) (old_prop_value n1 key))
    (prop_keys p).

(** ** Examples *)

(** [<div id="app">count: 0</div>], as a render function makes it. *)
Definition demo_app_div : VNode :=
  createVNode (Tag "div") (Some [("id", VString "app")])
    (ChildrenArray [RawText "count: 0"]).

(** The render functions of components 0, 1 and 2. *)
Definition demo_render0 : InternalRenderFunction :=
  fun _ => ChildVNode demo_app_div.
Definition demo_render1 : InternalRenderFunction :=
  fun p => RawText (match prop_get p "n" with VString t => t | _ => "none" end).
Definition demo_render2 : InternalRenderFunction :=
  fun p => ChildVNode (createVNode (Comp 1) (Some [("n", prop_get p "n")])
                         (ChildrenArray [])).

(** Component 0 renders [demo_app_div]; component 1 renders its prop [n] as
    text; component 2 renders component 1, passing its own prop [n] down;
    every other component has no [setup]. *)
Definition demo_components (c : nat) : Component :=
  match c with
  | 0 => mkComponent (Some (fun _ => demo_render0))
  | 1 => mkComponent (Some (fun _ => demo_render1))
  | 2 => mkComponent (Some (fun _ => demo_render2))
  | _ => mkComponent None
  end.

(** [demo_app_div] once mounted in the container 0 of an empty document, and
    the state after the mount. *)
Definition demo_app_div_mounted : VNode :=
  mkVNode (Tag "div") (Some [("id", VString "app")])
    (ChildrenArray [ChildVNode (text_vnode "count: 0" (Some 2))]) (Some 1) None.
Definition demo_app_state (store : list ComponentInternalInstance) : State Dom :=
  mkState
    (mkDom 3 [(1, 0); (2, 1)] [(2, ChildrenText "count: 0")] [(1, "id", VString "app")])
    [OpCreateElement (Tag "div"); OpCreateText (ChildrenText "count: 0");
     OpInsert (Some 2) (Some 1); OpPatchProp (Some 1) "id" (VString "app");
     OpInsert (Some 1) (Some 0)]
    store.

(** An instance of component 0 on which the render effect has not run yet,
    and a state that holds it. *)
Definition demo_fresh_instance : ComponentInternalInstance :=
  mkInstance (Comp 0)
    (mkVNode (Comp 0) (Some []) (ChildrenArray []) None (Some 0))
    None [] (Some demo_render0) None false (Some (Some 0)).
Definition demo_fresh_state : State Dom := mkState dom_empty [] [demo_fresh_instance].

(** A mounted instance of component 1 with the prop [n = "a"]: its text node
    is node 2, in node 1.  A state that holds it, and the VNode of the next
    render of its parent, with [n = "b"]. *)
Definition demo_mounted_instance : ComponentInternalInstance :=
  mkInstance (Comp 1)
    (mkVNode (Comp 1) (Some [("n", VString "a")]) (ChildrenArray []) (Some 2) (Some 0))
    None [("n", VString "a")] (Some demo_render1)
    (Some (text_vnode "a" (Some 2))) true (Some (Some 1)).
Definition demo_mounted_state : State Dom :=
  mkState (mkDom 10 [(2, 1)] [(2, ChildrenText "a")] []) [] [demo_mounted_instance].
Definition demo_next_vnode : VNode :=
  createVNode (Comp 1) (Some [("n", VString "b")]) (ChildrenArray []).

(** A mounted text node. *)
Definition demo_old_text : VNode := text_vnode "a" (Some 2).

(** A mounted [<div id="x" class="c">] with two text children. *)
Definition demo_old_div : VNode :=
  mkVNode (Tag "div") (Some [("id", VString "x"); ("class", VString "c")])
    (ChildrenArray [ChildVNode (text_vnode "a" (Some 2));
                    ChildVNode (text_vnode "b" (Some 3))])
    (Some 1) None.

(** The next render of it: the class has changed, and the two children have
    changed places. *)
Definition demo_new_div : VNode :=
  createVNode (Tag "div") (Some [("id", VString "x"); ("class", VString "d")])
    (ChildrenArray [RawText "b"; RawText "a"]).

(** The next render of it with one child only. *)
Definition demo_short_div : VNode :=
  createVNode (Tag "div") (Some [("id", VString "x"); ("class", VString "c")])
    (ChildrenArray [RawText "a"]).

(** A mounted [<div>] without props, and a next render of it that has the key
    [id] with the value [undefined]. *)
Definition demo_bare_div : VNode :=
  mkVNode (Tag "div") (Some []) (ChildrenArray []) (Some 1) None.
Definition demo_undefined_id_div : VNode :=
  createVNode (Tag "div") (Some [("id", VUndefined)]) (ChildrenArray []).

(** ** Notions used by the properties *)

(** A computation that leaves the calls recorded before it in place and adds
    its own after them. *)
Definition appends {H A} (c : M H A) : Prop :=
  forall s, exists d, trace (c s).2 = trace s ++ d.

(** Two [patch] functions that agree on the new VNodes without components. *)
Definition agree_on_component_free {H} (p1 p2 : PatchFn H) : Prop :=
  forall n1 n2 c s, component_free n2 = true -> p1 n1 n2 c s = p2 n1 n2 c s.

(** A run that does not stop at the bound of the model. *)
Definition completes {H A} (r : Result A * State H) : Prop := r.1 <> OutOfFuel.

(** The state [s] with the instance behind [id] replaced by [i]. *)
Definition with_instance {H} (s : State H) (id : nat) (i : ComponentInternalInstance)
    : State H :=
  mkState (host s) (trace s) (<[id := i]> (instances s)).

(** The state [s] with one more host call recorded and the host state [h]. *)
Definition with_call {H} (s : State H) (op : HostOp) (h : H) : State H :=
  mkState h (trace s ++ [op]) (instances s).

(** ** More notions used by the properties *)

(** The instance an old VNode refers to, [n1.component]: none on a string. *)
Definition old_instance (n1 : OldVNode) : option nat :=
  match n1 with
  | OldNode v => component v
  | _ => None
  end.

(** ** Trees that mount and patch without fault *)

(** [f] holds of every VNode among the children [l]. *)
Fixpoint all_children (f : VNode -> bool) (l : list VNodeChild) : bool :=
  match l with
  | [] => true
  | RawText _ :: rest => all_children f rest
  | ChildVNode c :: rest => f c && all_children f rest
  end.

(** No prop has the value [NaN], the one value that is [!==] to itself. *)
Definition no_NaN (p : VNodeProps) : bool :=
  forallb (fun kv => negb (bool_decide (kv.2 = VNaN))) p.

(** A tree as the types of the source mean it: no components; a [Text] node
    has a text payload; an element has an array of children, or an empty text
    payload, and no [NaN] among its props. *)
Fixpoint well_formed (v : VNode) : bool :=
  match type v with
  | Text =>
      match children v with
      | ChildrenText _ => true
      | ChildrenArray _ => false
      end
  | Tag _ =>
      no_NaN (default [] (props v)) &&
      match children v with
      | ChildrenText t => bool_decide (t = "")
      | ChildrenArray items => all_children well_formed items
      end
  | Comp _ => false
  end.

(** The new children [cs] each have an old VNode at their index in [ms], of
    the shape [f] asks for when the new child is a VNode. *)
Fixpoint shaped_children (f : VNode -> VNode -> bool)
    (cs ms : list VNodeChild) : bool :=
  match cs, ms with
  | [], _ => true
  | c :: cs', ChildVNode m :: ms' =>
      match c with
      | RawText _ => true
      | ChildVNode v => f v m
      end && shaped_children f cs' ms'
  | _, _ => false
  end.

(** The old tree [m] has a VNode wherever the new tree [n], which is without
    components, has a node: at every index of every child list of [n]. *)
Fixpoint shaped (n m : VNode) {struct n} : bool :=
  match type n with
  | Text => true
  | Tag _ =>
      match children n with
      | ChildrenText t => bool_decide (t = "")
      | ChildrenArray cs =>
          match children m with
          | ChildrenArray ms => shaped_children shaped cs ms
          | ChildrenText _ => match cs with [] => true | _ :: _ => false end
          end
      end
  | Comp _ => false
  end.

(** The number of nodes among the children [l], given the number [f] of nodes
    of a VNode; a raw text counts for the text node it becomes. *)
Fixpoint nodes_children (f : VNode -> nat) (l : list VNodeChild) : nat :=
  match l with
  | [] => 0
  | RawText _ :: rest => 1 + nodes_children f rest
  | ChildVNode c :: rest => f c + nodes_children f rest
  end.

(** The number of nodes of a tree. *)
Fixpoint nodes (v : VNode) : nat :=
  S (match children v with
     | ChildrenText _ => 0
     | ChildrenArray items => nodes_children nodes items
     end).

(** Host calls by kind. *)
Definition is_create (op : HostOp) : bool :=
  match op with
  | OpCreateElement _ | OpCreateText _ => true
  | _ => false
  end.
Definition is_insert (op : HostOp) : bool :=
  match op with
  | OpInsert _ _ => true
  | _ => false
  end.
Definition is_mount (op : HostOp) : bool :=
  match op with
  | OpCreateElement _ | OpCreateText _ | OpInsert _ _ | OpPatchProp _ _ _ => true
  | _ => false
  end.

(** Every host call of the list is of the kind [kind]. *)
Definition host_calls_only (kind : HostOp -> bool) (d : list HostOp) : Prop :=
  forallb kind d = true.


(** The number of host calls of the kind [kind] in the list. *)
Definition count_calls (kind : HostOp -> bool) (d : list HostOp) : nat :=
  length (List.filter kind d).

(** What a mount of the tree [n] from the state [s] leaves behind: a tree
    that has a VNode wherever [n] has a node; host calls that create, insert
    and set props only, with one creation and one insertion for every node of
    [n]; the instances as they were. *)
Definition mounted {H} (n : VNode) (s : State H) (run : Result VNode * State H) : Prop :=
  exists m s' d,
    run = (Ok m, s') /\
    trace s' = trace s ++ d /\
    host_calls_only is_mount d /\
    count_calls is_create d = nodes n /\
    count_calls is_insert d = nodes n /\
    instances s' = instances s /\
    shaped n m = true.

(** ** The root render function of the earlier revision

    [render] of [src/packages/runtime-core/renderer.ts].  It calls
    [rootComponent.setup!()] without arguments, calls what comes back without
    arguments on every run of the effect, and hands the result to [patch] as
    the new VNode.  The variable [n1] of the closure is passed in and handed
    back. *)

Module EarlierRoot.
(** The root component, as [render] uses it: an optional [setup] that
    returns the render function. *)
Record RootComponent : Type := mkRootComponent {
  root_setup : option (unit -> unit -> VNode)
}.

Section Renderer.
Context {H : Type} (options : RendererOptions H).

(** [updateComponent], the closure that the effect runs: returns [n1] as the
    run leaves it. *)
Definition updateComponent (fuel : nat) (componentRender : unit -> VNode)
    (container : option HostNode) (n1 : OldVNode) : M H OldVNode :=
  let n2 := componentRender tt in
  let* n2 := Earlier.patch options fuel n1 n2 container in
  ret (OldNode n2).

(** [render] *)
Definition render (fuel : nat) (rootComponent : RootComponent)
    (container : option HostNode) : M H OldVNode :=
  match root_setup rootComponent with
  | None => throw TypeError
  | Some setup =>
      let componentRender := setup tt in
      let n1 := OldNull in
      effect_run (updateComponent fuel componentRender container n1)
  end.
End Renderer.
End EarlierRoot.

(** ** runtime-dom: props and event listeners

    [patchProp] of [src/packages/runtime-dom/patchProp.ts] and the event
    module [src/unnamed/part_001]. *)

(** Whether a value is truthy, [!!v]. *)
Definition truthy (v : value) : bool :=
  match v with
  | VUndefined | VNull | VNaN => false
  | VBool b => b
  | VNumber z => negb (Z.eqb z 0)
  | VString s => negb (bool_decide (s = ""))
  | VObject _ => true
  end.

(** A character of [a-z]. *)
Definition is_lower (a : Ascii.ascii) : bool :=
  Nat.leb 97 (Ascii.nat_of_ascii a) && Nat.leb (Ascii.nat_of_ascii a) 122.

(** [isOn]: the test of [/^on[^a-z]/], an "on" followed by a character that
    is no lower-case letter. *)
Definition isOn (key : string) : bool :=
  String.prefix "on" key &&
  match String.get 2 key with
  | Some a => negb (is_lower a)
  | None => false
  end.

(** [s.slice(n)] *)
Fixpoint slice (n : nat) (s : string) : string :=
  match n, s with
  | S n', String _ rest => slice n' rest
  | _, _ => s
  end.

(** The calls made on the DOM element.  An invoker, a function object with a
    [value] field, is referred to by its identity. *)
Inductive DomCall : Type :=
  | DomAddEventListener (event : string) (handler : nat)
  | DomRemoveEventListener (event : string) (handler : nat).

(** The element as the event module sees it: its [_vei] field ([None] while
    [undefined]; a key can be there with the value [undefined]); the [value]
    field of every invoker made so far; the calls made on the DOM so far;
    and its attributes, which the event module never reads. *)
Record Element (A : Type) : Type := mkElement {
  vei : option (gmap string (option nat));
  invoker_values : list value;
  dom_calls : list DomCall;
  attributes : A
}.
Arguments mkElement {A} _ _ _ _.
Arguments vei {A} _.
Arguments invoker_values {A} _.
Arguments dom_calls {A} _.
Arguments attributes {A} _.

Section RuntimeDom.
Context {A : Type}.

(** [String.prototype.toLocaleLowerCase], whose result depends on the
    locale of the host: a parameter. *)
Variable toLocaleLowerCase : string -> string.

(** [patchAttr] of [./modules/attrs], which is not among the sources: a
    parameter, acting on the attributes of the element. *)
Variable patchAttr : string -> value -> A -> A.

(** [addEventListener] *)
Definition addEventListener (el : Element A) (event : string) (handler : nat)
    : Element A :=
  mkElement (vei el) (invoker_values el)
    (dom_calls el ++ [DomAddEventListener event handler]) (attributes el).

(** [removeEventListener] *)
Definition removeEventListener (el : Element A) (event : string) (handler : nat)
    : Element A :=
  mkElement (vei el) (invoker_values el)
    (dom_calls el ++ [DomRemoveEventListener event handler]) (attributes el).

(** [parseName], local to [patchEvent] *)
Definition parseName (rowName : string) : string :=
  toLocaleLowerCase (slice 2 rowName).

(** [createInvoker], local to [patchEvent]: a new invoker whose [value] is
    [initialValue]. *)
Definition createInvoker (initialValue : value) (el : Element A) : nat * Element A :=
  (length (invoker_values el),
   mkElement (vei el) (invoker_values el ++ [initialValue]) (dom_calls el)
     (attributes el)).

(** [invokers[rawName] = invoker], on the object that [el._vei] is. *)
Definition set_invoker (el : Element A) (rawName : string) (invoker : option nat)
    : Element A :=
  mkElement (Some (<[rawName := invoker]> (default ∅ (vei el))))
    (invoker_values el) (dom_calls el) (attributes el).

(** [patchEvent] *)
Definition patchEvent (el : Element A) (rawName : string) (value : value)
    : Element A :=
  let invokers := default ∅ (vei el) in
  let el := mkElement (Some invokers) (invoker_values el) (dom_calls el)
              (attributes el) in
  let existingInvoker := invokers !! rawName ≫= id in
  match truthy value, existingInvoker with
  | true, Some existing =>
      mkElement (vei el) (<[existing := value]> (invoker_values el)) (dom_calls el)
        (attributes el)
  | _, _ =>
      let name := parseName rawName in
      if truthy value then
        let '(invoker, el) := createInvoker value el in
        let el := set_invoker el rawName (Some invoker) in
        addEventListener el name invoker
      else
        match existingInvoker with
        | Some existing =>
            let el := removeEventListener el name existing in
            set_invoker el rawName None
        | None => el
        end
  end.

(** [patchProp] *)
Definition dom_patchProp (el : Element A) (key : string) (value : value)
    : Element A :=
  if isOn key then patchEvent el key value
  else mkElement (vei el) (invoker_values el) (dom_calls el)
         (patchAttr key value (attributes el)).

(** A run of [patchProp] calls on the element, one after the other. *)
Definition patch_props (calls : list (string * value)) (el : Element A) : Element A :=
  fold_left (fun el kv => dom_patchProp el kv.1 kv.2) calls el.

(** The invoker that the element holds for a raw name, [el._vei?.[rawName]]. *)
Definition invoker_of (el : Element A) (rawName : string) : option nat :=
  default ∅ (vei el) !! rawName ≫= id.

(** The value that the invoker of a raw name calls when it is invoked. *)
Definition handler_of (el : Element A) (rawName : string) : option value :=
  invoker_of el rawName ≫= (fun invoker => invoker_values el !! invoker).
End RuntimeDom.

(** The listeners of an element after the DOM calls [calls], as the DOM keeps
    them: a listener that is there is not added again, and a removal takes
    the listener out. *)
Definition dom_listen (ls : list (string * nat)) (c : DomCall) : list (string * nat) :=
  match c with
  | DomAddEventListener e h => if decide ((e, h) ∈ ls) then ls else ls ++ [(e, h)]
  | DomRemoveEventListener e h => filter (fun x => x ≠ (e, h)) ls
  end.
Definition listeners (calls : list DomCall) : list (string * nat) :=
  fold_left dom_listen calls [].

(** The element and the DOM agree: every invoker that the element holds
    exists; no invoker is held for two raw names; the listeners of the DOM
    are the invokers held, each under the event name of its raw name; and no
    listener is there twice. *)
Definition events_consistent {A} (toLocaleLowerCase : string -> string)
    (el : Element A) : Prop :=
  (forall k h, invoker_of el k = Some h -> h < length (invoker_values el)) /\
  (forall k1 k2 h, invoker_of el k1 = Some h -> invoker_of el k2 = Some h -> k1 = k2) /\
  (forall e h, (e, h) ∈ listeners (dom_calls el) <->
               exists k, invoker_of el k = Some h /\ e = parseName toLocaleLowerCase k) /\
  NoDup (listeners (dom_calls el)).

(** The handler that the last of the calls for the key [key] leaves: its
    value when that is truthy, none otherwise. *)
Definition last_handler (key : string) (calls : list (string * value)) : option value :=
  fold_left (fun acc kv =>
               if decide (kv.1 = key)
               then (if truthy kv.2 then Some kv.2 else None)
               else acc) calls None.

(** The number of calls that give a key a handler when it has none, or take
    its handler away when it has one, [live] telling which keys have one to
    start with. *)
Fixpoint transitions (live : string -> bool) (calls : list (string * value)) : nat :=
  match calls with
  | [] => 0
  | (key, v) :: rest =>
      (if Bool.eqb (live key) (truthy v) then 0 else 1)
      + transitions (fun k => if decide (k = key) then truthy v else live k) rest
  end.

(** The calls for event keys, and those for the other keys. *)
Definition event_calls (calls : list (string * value)) : list (string * value) :=
  List.filter (fun kv => isOn kv.1) calls.
Definition attr_calls (calls : list (string * value)) : list (string * value) :=
  List.filter (fun kv => negb (isOn kv.1)) calls.

(** An element on which nothing was patched yet. *)
Definition fresh_element {A} (a : A) : Element A := mkElement None [] [] a.

(** Lower case for the letters [A-Z], for the examples. *)
Fixpoint ascii_lower (s : string) : string :=
  match s with
  | EmptyString => EmptyString
  | String a rest =>
      String
        (if Nat.leb 65 (Ascii.nat_of_ascii a) && Nat.leb (Ascii.nat_of_ascii a) 90
         then Ascii.ascii_of_nat (Ascii.nat_of_ascii a + 32) else a)
        (ascii_lower rest)
  end.

(** ** More examples *)

(** [<p>hi</p>] and [<p id="x"></p>] with the text as the payload of the
    element itself, as [h("p", {}, "hi")] would make them. *)
Definition demo_text_p : VNode :=
  mkVNode (Tag "p") None (ChildrenText "hi") None None.
Definition demo_empty_p : VNode :=
  mkVNode (Tag "p") (Some [("id", VString "x")]) (ChildrenText "") None None.

(** [<div><p>hi</p></div>] *)
Definition demo_div_of_text_p : VNode :=
  createVNode (Tag "div") None (ChildrenArray [ChildVNode demo_text_p]).

(** A VNode for component 1 that no instance was made for. *)
Definition demo_unmounted_component : VNode :=
  createVNode (Comp 1) (Some [("n", VString "a")]) (ChildrenArray []).

(** A VNode for component 0. *)
Definition demo_root_vnode : VNode :=
  createVNode (Comp 0) (Some []) (ChildrenArray []).

(** A root component for the earlier revision, which renders
    [demo_app_div]. *)
Definition demo_root : EarlierRoot.RootComponent :=
  EarlierRoot.mkRootComponent (Some (fun _ _ => demo_app_div)).


(** * Properties *)

(** ** Normalization *)

(** C8. Normalizing is idempotent: normalizing the result of a normalization
    gives that result back, for a raw child as for a VNode, and a text node is
    not wrapped a second time. *)
Theorem normalizeVNode_idempotent (x : VNodeChild) :
  normalizeVNode (ChildVNode (normalizeVNode x)) = normalizeVNode x.
Proof. destruct x; reflexivity. Qed.

(** A VNode comes back from normalization as it went in. *)
Lemma normalizeVNode_vnode (v : VNode) : normalizeVNode (ChildVNode v) = v.
Proof. reflexivity. Qed.

(** Raw text comes back as a [Text]-type VNode with the text for payload. *)
Lemma normalizeVNode_raw (s : string) :
  type (normalizeVNode (RawText s)) = Text /\
  children (normalizeVNode (RawText s)) = ChildrenText s.
Proof. split; reflexivity. Qed.

(** ** Patching a text node *)

Section TextPatch.
Context {H : Type} (options : RendererOptions H) (components : nat -> Component).

Lemma processText_mounted n1 n2 container (s : State H) :
  is_nullish n1 = false ->
  processText options n1 n2 container s =
    (Ok (set_el n2 (old_host_ref n1)),
     if children_ne (children n2) (old_payload n1)
     then mkState (setText options (old_host_ref n1) (children n2) (host s))
                  (trace s ++ [OpSetText (old_host_ref n1) (children n2)])
                  (instances s)
     else s).
Proof.
  intros Hn. unfold processText. rewrite Hn.
  destruct n1 as [| |t|v]; try discriminate; cbn;
    destruct (children_ne _ _); reflexivity.
Qed.

(** C1. Patching a [Text]-type VNode against an old VNode that is there
    calls the host's [setText] exactly once, on the old host reference and
    with the new payload, when the new payload differs from the old one;
    when the payloads are equal it makes no host call at all and leaves the
    state as it is.  This holds in both revisions. *)
Theorem text_patch_minimal fuel n1 n2 container (s : State H) :
  type n2 = Text ->
  is_nullish n1 = false ->
  let after :=
    (Ok (set_el n2 (old_host_ref n1)),
     if children_ne (children n2) (old_payload n1)
     then mkState (setText options (old_host_ref n1) (children n2) (host s))
                  (trace s ++ [OpSetText (old_host_ref n1) (children n2)])
                  (instances s)
     else s) in
  Later.patch options components (S fuel) n1 n2 container s = after /\
  Earlier.patch options (S fuel) n1 n2 container s = after.
Proof.
  intros Ht Hn after. subst after. cbn [Later.patch Earlier.patch].
  unfold Later.patch_body, Earlier.patch_body. rewrite Ht.
  split; apply processText_mounted; assumption.
Qed.
End TextPatch.

(** ** Running a computation *)

Section Run.
Context {H : Type}.

Lemma bind_run {A B} (c : M H A) (k : A -> M H B) (s : State H) :
  bind c k s =
  match c s with
  | (Ok a, s') => k a s'
  | (Throw e, s') => (Throw e, s')
  | (OutOfFuel, s') => (OutOfFuel, s')
  end.
Proof. reflexivity. Qed.

Lemma ret_run {A} (a : A) (s : State H) : ret a s = (Ok a, s).
Proof. reflexivity. Qed.

Lemma throw_run {A} (e : Exn) (s : State H) : @throw H A e s = (Throw e, s).
Proof. reflexivity. Qed.
End Run.

(** Unfolds the binds at the head of a run and reduces the matches on the
    outcomes that are known. *)
Ltac run := repeat (rewrite ?bind_run, ?ret_run, ?throw_run; cbv beta iota).

(** Cases on the outcome of a run [t]. *)
Ltac run_cases t a e s' :=
  destruct t as [[a|e|] s']; cbv beta iota; try reflexivity.

(** ** The loops over children *)

Section Loops.
Context {H : Type} (patch : PatchFn H).

Lemma insert_at_end {A} (done rest : list A) (c x : A) :
  <[length done := x]> (done ++ c :: rest) = (done ++ [x]) ++ rest.
Proof.
  replace (length done) with (length done + 0) at 1 by lia.
  rewrite insert_app_r, <- app_assoc. reflexivity.
Qed.

Lemma patchChildren_loop_each c1 container rest : forall done (s : State H),
  for_loop (length rest) (length done)
    (patchChildren_step patch c1 container) (done ++ rest) s =
  (let* r := patch_each patch (old_index c1) container (length done) rest in
   ret (done ++ r)) s.
Proof.
  induction rest as [|c rest IH]; intros done s; [reflexivity|].
  cbn [length for_loop patch_each]. unfold patchChildren_step at 1.
  rewrite list_lookup_middle by reflexivity. run.
  run_cases (old_index c1 (length done) s) old e s1. run.
  run_cases (patch old (normalizeVNode c) container s1) child e s2.
  rewrite list_insert_insert_eq, insert_at_end.
  specialize (IH (done ++ [ChildVNode child]) s2).
  rewrite length_app in IH. cbn [length] in IH.
  replace (length done + 1) with (S (length done)) in IH by lia.
  run. rewrite IH. run.
  run_cases (patch_each patch (old_index c1) container (S (length done)) rest s2) r e s3.
  run. rewrite <- app_assoc. reflexivity.
Qed.

Lemma mountChildren_loop_each container rest : forall done (s : State H),
  for_loop (length rest) (length done)
    (mountChildren_step patch container) (done ++ rest) s =
  (let* r := patch_each patch (fun _ => ret OldNull) container (length done) rest in
   ret (done ++ r)) s.
Proof.
  induction rest as [|c rest IH]; intros done s; [reflexivity|].
  cbn [length for_loop patch_each]. unfold mountChildren_step at 1.
  rewrite list_lookup_middle by reflexivity. run.
  run_cases (patch OldNull (normalizeVNode c) container s) child e s2.
  rewrite list_insert_insert_eq, insert_at_end.
  specialize (IH (done ++ [ChildVNode child]) s2).
  rewrite length_app in IH. cbn [length] in IH.
  replace (length done + 1) with (S (length done)) in IH by lia.
  run. rewrite IH. run.
  run_cases (patch_each patch (fun _ => ret OldNull) container (S (length done)) rest s2) r e s3.
  run. rewrite <- app_assoc. reflexivity.
Qed.

(** [mountChildren] on an array mounts the children one position after the
    other. *)
Lemma mountChildren_each items container (s : State H) :
  mountChildren patch (ChildrenArray items) container s =
  (let* r := patch_each patch (fun _ => ret OldNull) container 0 items in
   ret (ChildrenArray r)) s.
Proof.
  unfold mountChildren. run.
  change (for_loop (length items) 0 (mountChildren_step patch container) items s)
    with (for_loop (length items) (length (@nil VNodeChild))
            (mountChildren_step patch container) ([] ++ items) s).
  rewrite mountChildren_loop_each. cbn [length]. run.
  run_cases (patch_each patch (fun _ => ret OldNull) container 0 items s) r e s1.
Qed.

(** [patchChildren] on an array of new children patches them one position
    after the other. *)
Lemma patchChildren_each n1 n2 items container (s : State H) :
  children n2 = ChildrenArray items ->
  patchChildren patch n1 n2 container s =
  (let* c1 := old_children n1 in
   let* r := patch_each patch (old_index c1) container 0 items in
   ret (ChildrenArray r)) s.
Proof.
  intros Hc. unfold patchChildren. rewrite Hc. run.
  run_cases (@old_children H n1 s) c1 e s1. run.
  change (for_loop (length items) 0 (patchChildren_step patch c1 container) items s1)
    with (for_loop (length items) (length (@nil VNodeChild))
            (patchChildren_step patch c1 container) ([] ++ items) s1).
  rewrite patchChildren_loop_each. cbn [length]. run.
  run_cases (patch_each patch (old_index c1) container 0 items s1) r e s2.
Qed.

End Loops.

(** ** Host calls are only ever added to the record *)

Section Appends.
Context {H : Type} (options : RendererOptions H).

Lemma appends_ret {A} (a : A) : appends (@ret H A a).
Proof. intros s. exists []. cbn. rewrite app_nil_r. reflexivity. Qed.

Lemma appends_throw {A} e : appends (@throw H A e).
Proof. intros s. exists []. cbn. rewrite app_nil_r. reflexivity. Qed.

Lemma appends_out_of_fuel {A} : appends (@out_of_fuel H A).
Proof. intros s. exists []. cbn. rewrite app_nil_r. reflexivity. Qed.

Lemma appends_bind {A B} (c : M H A) (k : A -> M H B) :
  appends c -> (forall a, appends (k a)) -> appends (bind c k).
Proof.
  intros Hc Hk s. destruct (Hc s) as [d Hd]. rewrite bind_run.
  destruct (c s) as [[a|e|] s1]; cbn in Hd |- *; eauto.
  destruct (Hk a s1) as [d' Hd']. exists (d ++ d').
  rewrite Hd', Hd, app_assoc. reflexivity.
Qed.

Lemma appends_log op (f : H -> H) : appends (log op f).
Proof. intros s. exists [op]. reflexivity. Qed.

Lemma appends_hostCreateElement t : appends (hostCreateElement options t).
Proof.
  intros s. exists [OpCreateElement t]. unfold hostCreateElement.
  destruct (createElement options t (host s)). reflexivity.
Qed.

Lemma appends_hostCreateText t : appends (hostCreateText options t).
Proof.
  intros s. exists [OpCreateText t]. unfold hostCreateText.
  destruct (createText options t (host s)). reflexivity.
Qed.

Lemma appends_hostParentNode n : appends (Later.hostParentNode options n).
Proof. intros s. exists [OpParentNode n]. reflexivity. Qed.

Lemma appends_get_instance id : appends (@get_instance H id).
Proof.
  intros s. exists []. unfold get_instance.
  destruct (instances s !! id); cbn; rewrite app_nil_r; reflexivity.
Qed.

Lemma appends_modify_instance id f : appends (@modify_instance H id f).
Proof. intros s. exists []. cbn. rewrite app_nil_r. reflexivity. Qed.

Lemma appends_createComponentInstance v : appends (@createComponentInstance H v).
Proof. intros s. exists []. cbn. rewrite app_nil_r. reflexivity. Qed.

Lemma appends_for_loop {A} (body : nat -> A -> M H A) :
  (forall i a, appends (body i a)) ->
  forall n i a, appends (for_loop n i body a).
Proof.
  intros Hb n. induction n as [|n IH]; intros i a; cbn [for_loop].
  - apply appends_ret.
  - apply appends_bind; auto.
Qed.

Lemma appends_for_in (body : string -> M H unit) :
  (forall key, appends (body key)) ->
  forall keys, appends (for_in keys body).
Proof.
  intros Hb keys. induction keys as [|k keys IH]; cbn [for_in].
  - apply appends_ret.
  - apply appends_bind; auto.
Qed.
End Appends.

Create HintDb appends.
#[global] Hint Resolve appends_ret appends_throw appends_out_of_fuel appends_log
  appends_hostCreateElement appends_hostCreateText appends_hostParentNode
  appends_get_instance appends_modify_instance appends_createComponentInstance
  : appends.

(** Goes through a computation built from binds, loops and case analyses. *)
Ltac appends_step :=
  match goal with
  | |- appends (bind _ _) => apply appends_bind; [|intros ?]
  | |- appends (for_loop _ _ _ _) => apply appends_for_loop; intros ? ?
  | |- appends (for_in _ _) => apply appends_for_in; intros ?
  | |- appends (if ?b then _ else _) => destruct b
  | |- appends (match ?x with _ => _ end) => destruct x
  | |- appends (effect_run _) => unfold effect_run
  | |- appends _ => solve [auto with appends]
  end.

Section AppendsEngine.
Context {H : Type} (options : RendererOptions H) (components : nat -> Component).

Lemma appends_processText n1 n2 c : appends (processText options n1 n2 c).
Proof.
  unfold processText, hostInsert, hostSetText, old_el, old_children.
  repeat appends_step.
Qed.

Lemma appends_processElement (patch : PatchFn H) :
  (forall n1 n2 c, appends (patch n1 n2 c)) ->
  forall n1 n2 c, appends (processElement options patch n1 n2 c).
Proof.
  intros Hp n1 n2 c.
  unfold processElement, mountElement, patchElement, mountChildren, patchChildren,
    mountChildren_step, patchChildren_step, hostInsert, hostPatchProp,
    old_el, old_children, old_prop, old_index.
  repeat appends_step.
Qed.

Lemma appends_processComponent (patch : PatchFn H) :
  (forall n1 n2 c, appends (patch n1 n2 c)) ->
  forall n1 n2 c, appends (Later.processComponent options components patch n1 n2 c).
Proof.
  intros Hp n1 n2 c.
  unfold Later.processComponent, Later.mountComponent, Later.updateComponent,
    Later.setupRenderEffect, Later.instance_update, Later.componentUpdateFn,
    initProps, updateProps, call_render, old_el, old_component.
  repeat appends_step.
Qed.

Lemma appends_patch fuel : forall n1 n2 c,
  appends (Later.patch options components fuel n1 n2 c).
Proof.
  induction fuel as [|fuel IH]; intros n1 n2 c; cbn [Later.patch].
  - apply appends_out_of_fuel.
  - unfold Later.patch_body. destruct (type n2).
    + apply appends_processText.
    + apply appends_processElement, IH.
    + apply appends_processComponent, IH.
Qed.

Lemma appends_patch_earlier fuel : forall n1 n2 c,
  appends (Earlier.patch options fuel n1 n2 c).
Proof.
  induction fuel as [|fuel IH]; intros n1 n2 c; cbn [Earlier.patch].
  - apply appends_out_of_fuel.
  - unfold Earlier.patch_body. destruct (type n2).
    + apply appends_processText.
    + apply appends_processElement, IH.
    + apply appends_processElement, IH.
Qed.
End AppendsEngine.

(** ** Props *)

Section Props.
Context {H : Type} (options : RendererOptions H).

Lemma for_in_patchProp node p (cond : string -> bool) keys : forall s : State H,
  for_in keys (fun key =>
    if cond key then hostPatchProp options node key (prop_get p key) else ret tt) s =
  (Ok tt,
   mkState (prop_host options node p (List.filter cond keys) (host s))
           (trace s ++ prop_ops node p (List.filter cond keys))
           (instances s)).
Proof.
  induction keys as [|key keys IH]; intros s; cbn [for_in List.filter].
  - cbn. rewrite app_nil_r. destruct s; reflexivity.
  - run. destruct (cond key); cbv beta iota.
    + unfold hostPatchProp at 1, log. cbv beta iota. rewrite IH. cbn.
      rewrite <- app_assoc. reflexivity.
    + run. apply IH.
Qed.

Lemma for_in_mount_props node p keys (s : State H) :
  for_in keys (fun key => hostPatchProp options node key (prop_get p key)) s =
  (Ok tt,
   mkState (prop_host options node p keys (host s))
           (trace s ++ prop_ops node p keys)
           (instances s)).
Proof.
  pose proof (for_in_patchProp node p (fun _ => true) keys s) as Hf.
  cbv beta iota in Hf. rewrite Hf.
  replace (List.filter (fun _ => true) keys) with keys; [reflexivity|].
  clear Hf. induction keys as [|k keys IH]; cbn [List.filter]; [reflexivity|].
  f_equal. exact IH.
Qed.

Lemma old_prop_run n1 key (s : State H) :
  is_nullish n1 = false -> old_prop n1 key s = (Ok (old_prop_value n1 key), s).
Proof.
  destruct n1 as [| |t|v]; try discriminate; intros _; cbn; [reflexivity|].
  destruct (props v); reflexivity.
Qed.

Lemma for_in_patch_props n1 node p keys : forall s : State H,
  is_nullish n1 = false ->
  for_in keys (fun key =>
    let* old := old_prop n1 key in
    if strict_ne (prop_get p key) old
    then hostPatchProp options node key (prop_get p key) else ret tt) s =
  for_in keys (fun key =>
    if strict_ne (prop_get p key) (old_prop_value n1 key)
    then hostPatchProp options node key (prop_get p key) else ret tt) s.
Proof.
  intros s Hn. revert s.
  induction keys as [|key keys IH]; intros s; cbn [for_in]; [reflexivity|].
  run. rewrite old_prop_run by assumption. cbv beta iota.
  destruct (strict_ne _ _); cbv beta iota.
  - destruct (hostPatchProp options node key (prop_get p key) s) as [[[]|e|] s1];
      cbv beta iota; auto.
  - run. apply IH.
Qed.
End Props.

(** ** Elements *)

Section Elements.
Context {H : Type} (options : RendererOptions H) (components : nat -> Component).

Lemma old_el_run n1 (s : State H) :
  is_nullish n1 = false -> old_el n1 s = (Ok (old_host_ref n1), s).
Proof. destruct n1; try discriminate; reflexivity. Qed.

Lemma old_children_run n1 (s : State H) :
  is_nullish n1 = false -> old_children n1 s = (Ok (old_payload n1), s).
Proof. destruct n1; try discriminate; reflexivity. Qed.

(** [patchElement] on an old VNode that is there: the children are patched,
    then [patchProp] is called for the changed keys, in their order. *)
Lemma patchElement_run (patch : PatchFn H) n1 n2 (s : State H) :
  is_nullish n1 = false ->
  let node := old_host_ref n1 in
  let p := default [] (props n2) in
  patchElement options patch n1 n2 s =
  match patchChildren patch n1 (set_el n2 node) node s with
  | (Ok cs, s1) =>
      (Ok (set_children (set_el n2 node) cs),
       mkState (prop_host options node p (changed_keys n1 p) (host s1))
               (trace s1 ++ prop_ops node p (changed_keys n1 p))
               (instances s1))
  | (Throw e, s1) => (Throw e, s1)
  | (OutOfFuel, s1) => (OutOfFuel, s1)
  end.
Proof.
  intros Hn node p. unfold patchElement. run.
  rewrite old_el_run by assumption. cbv beta iota zeta. fold node. run.
  destruct (patchChildren patch n1 (set_el n2 node) node s) as [[cs|e|] s1];
    cbv beta iota; try reflexivity.
  cbn [props set_el set_children]. fold p.
  replace (from_option prop_keys [] (props n2)) with (prop_keys p)
    by (unfold p; destruct (props n2); reflexivity).
  run. rewrite for_in_patch_props by assumption.
  rewrite for_in_patchProp. reflexivity.
Qed.

(** [mountElement]: the element is created, the children are mounted into
    it, every prop is applied in the order of the keys, and the element is
    inserted. *)
Lemma mountElement_run (patch : PatchFn H) vnode container (s : State H) :
  let p := default [] (props vnode) in
  mountElement options patch vnode container s =
  let '(node, h1) := createElement options (type vnode) (host s) in
  let s1 := mkState h1 (trace s ++ [OpCreateElement (type vnode)]) (instances s) in
  match mountChildren patch (children vnode) (Some node) s1 with
  | (Ok cs, s2) =>
      (Ok (set_children (set_el vnode (Some node)) cs),
       mkState
         (insert options (Some node) container
            (prop_host options (Some node) p (prop_keys p) (host s2)))
         (trace s2 ++ prop_ops (Some node) p (prop_keys p)
            ++ [OpInsert (Some node) container])
         (instances s2))
  | (Throw e, s2) => (Throw e, s2)
  | (OutOfFuel, s2) => (OutOfFuel, s2)
  end.
Proof.
  intros p. unfold mountElement. run. unfold hostCreateElement at 1.
  destruct (createElement options (type vnode) (host s)) as [node h1].
  cbv beta iota. cbn [children set_el]. run.
  destruct (mountChildren patch (children vnode) (Some node) _) as [[cs|e|] s2];
    cbv beta iota; try reflexivity.
  cbn [props set_children set_el]. unfold p.
  destruct (props vnode) as [q|]; cbn [default from_option id].
  - run. rewrite for_in_mount_props. cbv beta iota. run.
    unfold hostInsert, log. cbn. rewrite <- app_assoc. reflexivity.
  - run. unfold hostInsert, log. cbn. reflexivity.
Qed.
End Elements.

Section ElementClaims.
Context {H : Type} (options : RendererOptions H) (components : nat -> Component).

Lemma appends_mountChildren (patch : PatchFn H) :
  (forall n1 n2 c, appends (patch n1 n2 c)) ->
  forall cs c, appends (mountChildren patch cs c).
Proof.
  intros Hp cs c. unfold mountChildren, mountChildren_step. repeat appends_step.
Qed.

(** The order of the host calls of a mount of an element, for any [patch]
    that only adds to the record. *)
Lemma mountElement_order (patch : PatchFn H) vnode container (s s' : State H) v' :
  (forall n1 n2 c, appends (patch n1 n2 c)) ->
  mountElement options patch vnode container s = (Ok v', s') ->
  let p := default [] (props vnode) in
  exists node h1 cs s2 tr,
    createElement options (type vnode) (host s) = (node, h1) /\
    mountChildren patch (children vnode) (Some node)
      (mkState h1 (trace s ++ [OpCreateElement (type vnode)]) (instances s))
      = (Ok cs, s2) /\
    trace s2 = trace s ++ [OpCreateElement (type vnode)] ++ tr /\
    trace s' = trace s ++ [OpCreateElement (type vnode)] ++ tr
                 ++ prop_ops (Some node) p (prop_keys p)
                 ++ [OpInsert (Some node) container] /\
    v' = set_children (set_el vnode (Some node)) cs.
Proof.
  intros Hp Hrun p. rewrite mountElement_run in Hrun.
  destruct (createElement options (type vnode) (host s)) as [node h1].
  cbv beta iota zeta in Hrun.
  pose proof (appends_mountChildren patch Hp (children vnode) (Some node)
    (mkState h1 (trace s ++ [OpCreateElement (type vnode)]) (instances s))) as [tr Htr].
  destruct (mountChildren patch (children vnode) (Some node) _)
    as [[cs|e|] s2] eqn:Hm; try discriminate.
  cbn [snd trace] in Htr. injection Hrun as Hv Hs. subst v' s'.
  exists node, h1, cs, s2, tr. cbn [trace]. fold p.
  rewrite Htr, <- !app_assoc. auto.
Qed.

(** When the mount of an element fails it is in the mount of a child: the
    calls made are [createElement] and those of the children mounted so far, no
    prop is applied and the element is not inserted. *)
Lemma mountElement_failure (patch : PatchFn H) vnode container (s s' : State H) r :
  (forall n1 n2 c, appends (patch n1 n2 c)) ->
  mountElement options patch vnode container s = (r, s') ->
  (forall v', r <> Ok v') ->
  exists node h1 r' tr,
    createElement options (type vnode) (host s) = (node, h1) /\
    mountChildren patch (children vnode) (Some node)
      (mkState h1 (trace s ++ [OpCreateElement (type vnode)]) (instances s))
      = (r', s') /\
    (forall cs, r' <> Ok cs) /\
    trace s' = trace s ++ [OpCreateElement (type vnode)] ++ tr.
Proof.
  intros Hp Hrun Hr. rewrite mountElement_run in Hrun.
  destruct (createElement options (type vnode) (host s)) as [node h1].
  cbv beta iota zeta in Hrun.
  pose proof (appends_mountChildren patch Hp (children vnode) (Some node)
    (mkState h1 (trace s ++ [OpCreateElement (type vnode)]) (instances s))) as [tr Htr].
  destruct (mountChildren patch (children vnode) (Some node) _)
    as [[cs|e|] s2] eqn:Hm; injection Hrun as <- <-.
  - exfalso. eapply Hr. reflexivity.
  - exists node, h1, (Throw e), tr. cbn [snd trace] in Htr.
    rewrite Htr, <- app_assoc. repeat split; auto; discriminate.
  - exists node, h1, OutOfFuel, tr. cbn [snd trace] in Htr.
    rewrite Htr, <- app_assoc. repeat split; auto; discriminate.
Qed.

(** C4. A first-time mount of an element makes its host calls in this order:
    [createElement] with the tag name; then the calls of mounting the
    children into the new element, each normalized child after the one
    before it; then one [patchProp] for every prop, in the order of the
    keys; and last the [insert] of the element into the container. *)
Theorem mount_element_order fuel vnode tag container (s s' : State H) v' :
  type vnode = Tag tag ->
  Later.patch options components (S fuel) OldNull vnode container s = (Ok v', s') ->
  let p := default [] (props vnode) in
  let patch := Later.patch options components fuel in
  exists node h1 cs s2 tr,
    let s1 := mkState h1 (trace s ++ [OpCreateElement (Tag tag)]) (instances s) in
    createElement options (Tag tag) (host s) = (node, h1) /\
    mountChildren patch (children vnode) (Some node) s1 = (Ok cs, s2) /\
    (forall items, children vnode = ChildrenArray items ->
       exists items', cs = ChildrenArray items' /\
         patch_each patch (fun _ => ret OldNull) (Some node) 0 items s1
           = (Ok items', s2)) /\
    trace s2 = trace s ++ [OpCreateElement (Tag tag)] ++ tr /\
    trace s' = trace s ++ [OpCreateElement (Tag tag)] ++ tr
                 ++ prop_ops (Some node) p (prop_keys p)
                 ++ [OpInsert (Some node) container] /\
    v' = set_children (set_el vnode (Some node)) cs.
Proof.
  intros Ht Hrun p patch. cbn [Later.patch] in Hrun.
  unfold Later.patch_body in Hrun. rewrite Ht in Hrun.
  unfold processElement in Hrun. cbn [is_null] in Hrun.
  apply mountElement_order in Hrun; [|apply appends_patch].
  rewrite Ht in Hrun.
  destruct Hrun as (node & h1 & cs & s2 & tr & Hc & Hm & Ht2 & Ht' & Hv).
  exists node, h1, cs, s2, tr. cbv zeta. repeat split; try assumption.
  intros items Hitems. fold patch in Hm. rewrite Hitems, mountChildren_each in Hm.
  rewrite bind_run in Hm.
  destruct (patch_each patch _ (Some node) 0 items _) as [[items'|e|] s3];
    try discriminate.
  injection Hm as <- <-. eauto.
Qed.

(** The same order holds in the earlier revision. *)
Lemma mount_element_order_earlier fuel vnode container (s s' : State H) v' :
  type vnode <> Text ->
  Earlier.patch options (S fuel) OldNull vnode container s = (Ok v', s') ->
  let p := default [] (props vnode) in
  exists node h1 cs s2 tr,
    createElement options (type vnode) (host s) = (node, h1) /\
    mountChildren (Earlier.patch options fuel) (children vnode) (Some node)
      (mkState h1 (trace s ++ [OpCreateElement (type vnode)]) (instances s))
      = (Ok cs, s2) /\
    trace s2 = trace s ++ [OpCreateElement (type vnode)] ++ tr /\
    trace s' = trace s ++ [OpCreateElement (type vnode)] ++ tr
                 ++ prop_ops (Some node) p (prop_keys p)
                 ++ [OpInsert (Some node) container] /\
    v' = set_children (set_el vnode (Some node)) cs.
Proof.
  intros Ht Hrun. cbn [Earlier.patch] in Hrun. unfold Earlier.patch_body in Hrun.
  apply (mountElement_order (Earlier.patch options fuel));
    [apply appends_patch_earlier|].
  destruct (type vnode); [congruence| |]; exact Hrun.
Qed.

End ElementClaims.

(** ** Old children past the end of the new list *)

Section Frame.
Context {H : Type} (options : RendererOptions H) (components : nat -> Component).

Lemma patch_each_old_ext (patch : PatchFn H) (f g : nat -> M H OldVNode)
    container items : forall i,
  (forall j s, i <= j < i + length items -> f j s = g j s) ->
  forall s, patch_each patch f container i items s
            = patch_each patch g container i items s.
Proof.
  induction items as [|c items IH]; intros i Hfg s; [reflexivity|].
  cbn [patch_each]. run. rewrite (Hfg i s) by (cbn [length]; lia).
  destruct (g i s) as [[old|e|] s1]; cbv beta iota; try reflexivity. run.
  destruct (patch old (normalizeVNode c) container s1) as [[child|e|] s2];
    cbv beta iota; try reflexivity.
  run. rewrite (IH (S i)); [reflexivity|].
  intros j s' Hj. apply Hfg. cbn [length]. lia.
Qed.

Lemma children_index_app_l (olds extra : list VNodeChild) j :
  j < length olds ->
  children_index (ChildrenArray (olds ++ extra)) j
  = children_index (ChildrenArray olds) j.
Proof. intros Hj. unfold children_index. rewrite lookup_app_l by assumption. reflexivity. Qed.

(** [patchChildren] never reads the old children past the end of the new
    list. *)
Lemma patchChildren_frame (patch : PatchFn H) v1 olds extra n2 items container
    (s : State H) :
  children v1 = ChildrenArray (olds ++ extra) ->
  children n2 = ChildrenArray items ->
  length items <= length olds ->
  patchChildren patch (OldNode v1) n2 container s =
  patchChildren patch (OldNode (set_children v1 (ChildrenArray olds))) n2 container s.
Proof.
  intros H1 H2 Hlen. rewrite !(patchChildren_each patch _ n2 items) by assumption.
  cbn [old_children children set_children]. rewrite H1. run.
  rewrite (patch_each_old_ext patch
             (old_index (Some (ChildrenArray (olds ++ extra))))
             (old_index (Some (ChildrenArray olds)))); [reflexivity|].
  intros j s' Hj. cbn [old_index]. rewrite children_index_app_l by lia. reflexivity.
Qed.

(** C10. The engine has no way to remove a host node: the host calls it
    makes are those of [HostOp], and none of them removes or detaches.  And
    when the new child list is not longer than the old one, the old children
    past its end play no part in the patch of the element: the outcome, the
    host calls and the host state are those of the patch against the old
    VNode without its trailing children.  No host call is made for them. *)
Theorem trailing_old_children_untouched fuel v1 olds extra n2 tag items container
    (s : State H) :
  type n2 = Tag tag ->
  children v1 = ChildrenArray (olds ++ extra) ->
  children n2 = ChildrenArray items ->
  length items <= length olds ->
  Later.patch options components fuel (OldNode v1) n2 container s =
  Later.patch options components fuel
    (OldNode (set_children v1 (ChildrenArray olds))) n2 container s.
Proof.
  intros Ht H1 H2 Hlen. destruct fuel as [|fuel]; [reflexivity|].
  cbn [Later.patch]. unfold Later.patch_body. rewrite Ht.
  unfold processElement. cbn [is_null].
  rewrite !patchElement_run by reflexivity. cbv zeta.
  cbn [old_host_ref el set_children].
  rewrite (patchChildren_frame _ v1 olds extra _ items) by assumption.
  reflexivity.
Qed.
End Frame.

(** ** The two revisions on trees without components *)

Section Revisions.
Context {H : Type} (options : RendererOptions H) (components : nat -> Component).

Lemma component_free_children v items :
  component_free v = true ->
  children v = ChildrenArray items ->
  Forall (fun c => component_free (normalizeVNode c) = true) items.
Proof.
  intros Hf Hc. destruct v as [t p c e i]. cbn in Hc. subst c.
  cbn [component_free type children] in Hf.
  assert (Hall : (fix all (l : list VNodeChild) : bool :=
                    match l with
                    | [] => true
                    | RawText _ :: rest => all rest
                    | ChildVNode c :: rest => component_free c && all rest
                    end) items = true)
    by (destruct t; [assumption|assumption|discriminate]).
  clear Hf. induction items as [|c items IH]; constructor.
  - destruct c as [txt|v]; [reflexivity|].
    apply andb_prop in Hall. apply Hall.
  - apply IH. destruct c as [txt|v]; [assumption|].
    apply andb_prop in Hall. apply Hall.
Qed.

Lemma patch_each_agree p1 p2 (old_at : nat -> M H OldVNode) container items :
  agree_on_component_free p1 p2 ->
  Forall (fun c => component_free (normalizeVNode c) = true) items ->
  forall i s, patch_each p1 old_at container i items s
              = patch_each p2 old_at container i items s.
Proof.
  intros Hag Hall. induction Hall as [|c items Hc Hall IH]; intros i s; [reflexivity|].
  cbn [patch_each]. run.
  destruct (old_at i s) as [[old|e|] s1]; cbv beta iota; try reflexivity. run.
  rewrite (Hag old (normalizeVNode c) container s1 Hc).
  destruct (p2 old (normalizeVNode c) container s1) as [[child|e|] s2];
    cbv beta iota; try reflexivity.
  run. rewrite IH. reflexivity.
Qed.

Lemma processElement_agree p1 p2 n1 n2 container (s : State H) :
  agree_on_component_free p1 p2 ->
  component_free n2 = true ->
  processElement options p1 n1 n2 container s
  = processElement options p2 n1 n2 container s.
Proof.
  intros Hag Hf. unfold processElement. destruct (is_null n1) eqn:Hnull.
  - rewrite !mountElement_run. cbv zeta.
    destruct (createElement options (type n2) (host s)) as [node h1].
    destruct (children n2) as [txt|items] eqn:Hc; [reflexivity|].
    rewrite !mountChildren_each. run.
    rewrite (patch_each_agree p1 p2) by eauto using component_free_children.
    reflexivity.
  - destruct (is_nullish n1) eqn:Hn.
    + destruct n1; try discriminate; reflexivity.
    + rewrite !patchElement_run by assumption. cbv zeta.
      destruct (children n2) as [txt|items] eqn:Hc.
      * unfold patchChildren. cbn [children set_el]. rewrite Hc. reflexivity.
      * rewrite !(patchChildren_each _ _ _ items) by (cbn [children set_el]; assumption).
        run. destruct (old_children n1 s) as [[c1|e|] s1]; cbv beta iota; try reflexivity.
        run. rewrite (patch_each_agree p1 p2) by eauto using component_free_children.
        reflexivity.
Qed.

(** C9. On a new VNode tree without components, made of [Text] nodes and of
    elements with a tag name only, the [patch] of the earlier revision and
    the [patch] of the later revision do the same: from the same old VNode,
    container, host adapter and state they reach the same outcome and the
    same state, and so make the same host calls in the same order. *)
Theorem revisions_agree_without_components fuel : forall n1 n2 container (s : State H),
  component_free n2 = true ->
  Earlier.patch options fuel n1 n2 container s
  = Later.patch options components fuel n1 n2 container s.
Proof.
  induction fuel as [|fuel IH]; intros n1 n2 container s Hf; [reflexivity|].
  cbn [Earlier.patch Later.patch]. unfold Earlier.patch_body, Later.patch_body.
  destruct (type n2) eqn:Ht.
  - reflexivity.
  - apply processElement_agree; [|assumption].
    intros m1 m2 c s' Hm. apply IH, Hm.
  - destruct n2 as [t p cs e i]. cbn in Ht. subst t. discriminate.
Qed.
End Revisions.

(** ** Components *)

Section InstanceStore.
Context {H : Type}.

Lemma alter_as_insert {A} (f : A -> A) (l : list A) i x :
  l !! i = Some x -> alter f i l = <[i := f x]> l.
Proof.
  revert i. induction l as [|y l IH]; intros [|i] Hl; try discriminate.
  - injection Hl as ->. reflexivity.
  - cbn in *. f_equal. apply IH, Hl.
Qed.

Lemma get_instance_run (s : State H) id i :
  instances s !! id = Some i -> get_instance id s = (Ok i, s).
Proof. intros Hi. unfold get_instance. rewrite Hi. reflexivity. Qed.

Lemma modify_instance_run (s : State H) id f i :
  instances s !! id = Some i ->
  modify_instance id f s = (Ok tt, with_instance s id (f i)).
Proof.
  intros Hi. unfold modify_instance, with_instance.
  rewrite (alter_as_insert f _ _ _ Hi). reflexivity.
Qed.

Lemma with_instance_lookup (s : State H) id i0 i :
  instances s !! id = Some i0 -> instances (with_instance s id i) !! id = Some i.
Proof.
  intros Hi. cbn. apply list_lookup_insert_eq. eapply lookup_lt_Some, Hi.
Qed.

Lemma with_instance_twice (s : State H) id i j :
  with_instance (with_instance s id i) id j = with_instance s id j.
Proof. unfold with_instance. cbn. rewrite list_insert_insert_eq. reflexivity. Qed.

End InstanceStore.

(** Reduces the reads of fields of an instance that was just written to. *)
Ltac instance_simpl :=
  cbn [i_type i_vnode i_next i_props i_render i_subTree i_isMounted i_update
       with_vnode with_next with_props with_render with_subTree with_isMounted
       with_update].

(** Runs the next read or write of an instance that is known to be there. *)
Ltac instance_step :=
  run;
  first
    [ erewrite get_instance_run by
        (first [eassumption | eapply with_instance_lookup; eassumption])
    | erewrite modify_instance_run by
        (first [eassumption | eapply with_instance_lookup; eassumption]) ];
  cbv beta iota; rewrite ?with_instance_twice; instance_simpl.

Section Components.
Context {H : Type} (options : RendererOptions H) (components : nat -> Component).

(** C5. The first run of the render effect of an instance, the one that
    finds [isMounted] false: it calls [render], normalizes what comes back
    and stores it as the instance's [subTree], mounts it with
    [patch(null, subTree, container)], copies the host reference of the
    subtree onto the component's own VNode and sets [isMounted]. *)
Theorem first_render_mounts (patch : PatchFn H) id container (s s1 : State H)
    inst inst1 r subTree' :
  instances s !! id = Some inst ->
  i_isMounted inst = false ->
  i_render inst = Some r ->
  let subTree := normalizeVNode (r (i_props inst)) in
  patch OldNull subTree container
    (with_instance s id (with_subTree (Some subTree) inst)) = (Ok subTree', s1) ->
  instances s1 !! id = Some inst1 ->
  Later.componentUpdateFn options patch id container s =
  (Ok tt,
   with_instance s1 id
     (mkInstance (i_type inst1) (set_el (i_vnode inst1) (el subTree'))
        (i_next inst1) (i_props inst1) (i_render inst1) (Some subTree')
        true (i_update inst1))).
Proof.
  intros Hi Hm Hr subTree Hp Hi1. unfold Later.componentUpdateFn.
  instance_step. rewrite Hm, Hr. cbn [negb call_render]. run.
  instance_step. fold subTree. run. rewrite Hp. cbv beta iota.
  instance_step. instance_step. instance_step. reflexivity.
Qed.

(** C6. The patch of a component whose old VNode has a mounted instance:
    the instance is attached to the new VNode, the new VNode becomes the
    instance's pending [next], and the update trigger runs the effect.  That
    run finds [next]: it gives it the host reference of the old [vnode] and
    the instance, makes it the instance's [vnode], clears [next], merges its
    props into the instance's props, renders, asks the host for the parent
    of the old subtree's host node and patches the old subtree against the
    new one in that parent. *)
Theorem component_update (patch : PatchFn H) v1 n2 id (s s1 : State H)
    inst inst1 r prevTree container0 nextTree' :
  component v1 = Some id ->
  instances s !! id = Some inst ->
  i_isMounted inst = true ->
  i_update inst = Some container0 ->
  i_render inst = Some r ->
  i_subTree inst = Some prevTree ->
  let next := set_component (set_el n2 (el (i_vnode inst))) (Some id) in
  let props' :=
    fold_left (fun acc kv => prop_set acc kv.1 kv.2) (default [] (props n2))
      (i_props inst) in
  let nextTree := normalizeVNode (r props') in
  let parent := parentNode options (el prevTree) (host s) in
  let pending :=
    mkInstance (i_type inst) next None props' (i_render inst) (Some nextTree)
      (i_isMounted inst) (i_update inst) in
  patch (OldNode prevTree) nextTree parent
    (with_call (with_instance s id pending) (OpParentNode (el prevTree)) (host s))
    = (Ok nextTree', s1) ->
  instances s1 !! id = Some inst1 ->
  let final :=
    mkInstance (i_type inst1) (set_el (i_vnode inst1) (el nextTree'))
      (i_next inst1) (i_props inst1) (i_render inst1) (Some nextTree')
      (i_isMounted inst1) (i_update inst1) in
  Later.updateComponent options patch (OldNode v1) n2 s =
  (Ok (default (i_vnode final) (i_next final)), with_instance s1 id final).
Proof.
  intros Hc Hi Hm Hu Hr Ht next props' nextTree parent pending Hp Hi1 final.
  unfold Later.updateComponent. cbn [old_component]. run. rewrite Hc.
  instance_step. instance_step.
  unfold Later.instance_update. instance_step.
  rewrite Hu. unfold effect_run, Later.componentUpdateFn.
  instance_step. rewrite Hm, Hr. cbn [negb].
  instance_step. instance_step. unfold updateProps. instance_step.
  instance_step. rewrite Ht.
  cbn [call_render from_option old_el el props set_component set_el].
  run. instance_step.
  unfold Later.hostParentNode at 1. run.
  match goal with
  | |- context [patch (OldNode prevTree) ?t ?p ?st] =>
      replace (patch (OldNode prevTree) t p st) with (Ok nextTree', s1)
        by (symmetry; exact Hp)
  end.
  cbv beta iota.
  instance_step. instance_step. instance_step. reflexivity.
Qed.

(** C7. Mounting a component whose definition has no [setup] fails: the
    instance that is created is left without a render function, the call of
    that missing function throws, and nothing on the way catches it: [patch]
    throws, and so does the root [render] for such a root component.  No
    host call is made. *)
Theorem mount_without_setup_fails fuel c n2 container (s : State H) :
  type n2 = Comp c ->
  setup (components c) = None ->
  let id := length (instances s) in
  let stuck vnode :=
    mkInstance (Comp c) (set_component vnode (Some id)) None
      (default [] (props vnode)) None None false (Some container) in
  Later.patch options components (S fuel) OldNull n2 container s
    = (Throw TypeError,
       mkState (host s) (trace s) (instances s ++ [stuck n2])) /\
  (n2 = createVNode (Comp c) (Some []) (ChildrenArray []) ->
   Later.render options components (S fuel) c container s
     = (Throw TypeError,
        mkState (host s) (trace s) (instances s ++ [stuck n2]))).
Proof.
  intros Ht Hs id stuck.
  assert (Hpatch : Later.patch options components (S fuel) OldNull n2 container s
    = (Throw TypeError, mkState (host s) (trace s) (instances s ++ [stuck n2]))).
  { cbn [Later.patch]. unfold Later.patch_body. rewrite Ht.
    unfold Later.processComponent. cbn [is_null]. unfold Later.mountComponent.
    run. unfold createComponentInstance at 1. cbv beta iota zeta. fold id.
    set (inst0 := mkInstance (type n2) n2 None [] None None false None).
    set (s0 := mkState (host s) (trace s) (instances s ++ [inst0])).
    assert (H0 : instances s0 !! id = Some inst0)
      by (apply list_lookup_middle; reflexivity).
    instance_step. instance_step. unfold initProps. instance_step.
    unfold Later.type_setup. rewrite Ht, Hs. run.
    unfold Later.setupRenderEffect. instance_step.
    unfold effect_run, Later.componentUpdateFn. instance_step.
    cbn [i_isMounted i_render with_update with_props with_vnode negb call_render].
    run. unfold with_instance, s0. cbn [host trace instances].
    rewrite (insert_at_end (instances s) [] inst0), app_nil_r.
    unfold stuck, inst0. cbn. rewrite Ht. reflexivity. }
  split; [exact Hpatch|].
  intros ->. exact Hpatch.
Qed.
End Components.

(** ** Enough fuel *)

Section EnoughFuel.
Context {H : Type} (options : RendererOptions H) (components : nat -> Component).

Lemma height_children v items :
  children v = ChildrenArray items ->
  Forall (fun c => height (normalizeVNode c) < height v) items.
Proof.
  intros Hc. destruct v as [t p c e i]. cbn in Hc. subst c.
  cbn [height children].
  set (highest := fix highest (l : list VNodeChild) : nat :=
          match l with
          | [] => 0
          | RawText _ :: rest => Nat.max 1 (highest rest)
          | ChildVNode c :: rest => Nat.max (height c) (highest rest)
          end).
  assert (Hall : forall l, Forall (fun c => height (normalizeVNode c) <= highest l) l).
  { induction l as [|c l IH]; constructor.
    - destruct c as [txt|v];
        [change (1 <= Nat.max 1 (highest l))
        |change (height v <= Nat.max (height v) (highest l))]; lia.
    - eapply Forall_impl; [exact IH|]. intros x Hx. cbv beta in Hx.
      destruct c as [txt|v];
        [change (height (normalizeVNode x) <= Nat.max 1 (highest l))
        |change (height (normalizeVNode x) <= Nat.max (height v) (highest l))]; lia. }
  eapply Forall_impl; [apply Hall|]. intros x Hx. cbv beta in Hx |- *. lia.
Qed.

Lemma patch_each_completes (patch : PatchFn H) (old_at : nat -> M H OldVNode)
    container items :
  (forall i s, completes (old_at i s)) ->
  Forall (fun c => forall n1 k s, completes (patch n1 (normalizeVNode c) k s)) items ->
  forall i s, completes (patch_each patch old_at container i items s).
Proof.
  intros Hold Hall. induction Hall as [|c items Hc Hall IH]; intros i s.
  - discriminate.
  - cbn [patch_each]. run. pose proof (Hold i s) as Ho.
    destruct (old_at i s) as [[old|e|] s1]; cbv beta iota;
      [|discriminate|exfalso; apply Ho; reflexivity].
    run. pose proof (Hc old container s1) as Hp.
    destruct (patch old (normalizeVNode c) container s1) as [[child|e|] s2];
      cbv beta iota; [|discriminate|exfalso; apply Hp; reflexivity].
    run. pose proof (IH (S i) s2) as Hr.
    destruct (patch_each patch old_at container (S i) items s2) as [[r|e|] s3];
      cbv beta iota; [discriminate|discriminate|exfalso; apply Hr; reflexivity].
Qed.

Lemma processText_completes n1 n2 container (s : State H) :
  completes (processText options n1 n2 container s).
Proof.
  destruct (is_nullish n1) eqn:Hn.
  - unfold processText. rewrite Hn. run. unfold hostCreateText at 1.
    destruct (createText options (children n2) (host s)); discriminate.
  - rewrite (processText_mounted options n1 n2 container s Hn).
    destruct (children_ne _ _); discriminate.
Qed.

Lemma processElement_completes (patch : PatchFn H) n1 n2 container (s : State H) :
  (forall items, children n2 = ChildrenArray items ->
     Forall (fun c => forall m1 k s', completes (patch m1 (normalizeVNode c) k s')) items) ->
  completes (processElement options patch n1 n2 container s).
Proof.
  intros Hch. unfold processElement. destruct (is_null n1) eqn:Hnull.
  - rewrite mountElement_run. cbv zeta.
    destruct (createElement options (type n2) (host s)) as [node h1].
    destruct (children n2) as [txt|items] eqn:Hc.
    + unfold mountChildren. destruct (decide _); discriminate.
    + rewrite mountChildren_each. run.
      match goal with
      | |- context [patch_each patch ?o ?k 0 items ?st] =>
          pose proof (patch_each_completes patch o k items
                        (fun _ _ => ltac:(discriminate)) (Hch items eq_refl) 0 st) as Hr;
          destruct (patch_each patch o k 0 items st) as [[r|e|] s2]
      end; cbv beta iota; [discriminate|discriminate|exfalso; apply Hr; reflexivity].
  - destruct (is_nullish n1) eqn:Hn.
    + destruct n1; discriminate.
    + rewrite patchElement_run by assumption. cbv zeta.
      destruct (children n2) as [txt|items] eqn:Hc.
      * unfold patchChildren. cbn [children set_el]. rewrite Hc. run.
        rewrite old_children_run by assumption. cbv beta iota.
        destruct (decide _); discriminate.
      * rewrite (patchChildren_each _ _ _ items) by (cbn [children set_el]; assumption).
        run. rewrite old_children_run by assumption. cbv beta iota. run.
        match goal with
        | |- context [patch_each patch ?o ?k 0 items ?st] =>
            assert (Hold : forall i s', completes (o i s'))
              by (intros i s'; destruct (old_payload n1); discriminate);
            pose proof (patch_each_completes patch o k items Hold
                          (Hch items eq_refl) 0 st) as Hr;
            destruct (patch_each patch o k 0 items st) as [[r|e|] s2]
        end; cbv beta iota; [discriminate|discriminate|exfalso; apply Hr; reflexivity].
Qed.

(** On a new tree without components, fuel above the height of the tree is
    enough for the later revision's [patch] to run to its end. *)
Lemma patch_completes fuel : forall n1 n2 container (s : State H),
  component_free n2 = true ->
  height n2 <= fuel ->
  completes (Later.patch options components fuel n1 n2 container s).
Proof.
  induction fuel as [|fuel IH]; intros n1 n2 container s Hf Hh.
  - destruct n2; cbn in Hh; lia.
  - cbn [Later.patch]. unfold Later.patch_body. destruct (type n2) eqn:Ht.
    + apply processText_completes.
    + apply processElement_completes. intros items Hc.
      pose proof (component_free_children n2 items Hf Hc) as Hfree.
      pose proof (height_children n2 items Hc) as Hlow.
      rewrite Forall_forall in Hfree, Hlow. apply Forall_forall.
      intros c Hin m1 k s'. apply IH; [apply Hfree, Hin|].
      specialize (Hlow c Hin). lia.
    + destruct n2 as [t p cs e i]. cbn in Ht. subst t. discriminate.
Qed.
End EnoughFuel.

(** ** The props of an element patch *)

Section PropClaims.
Context {H : Type} (options : RendererOptions H) (components : nat -> Component).

Lemma changed_keys_spec n1 p key :
  In key (changed_keys n1 p) <->
  In key (prop_keys p) /\ strict_ne (prop_get p key) (old_prop_value n1 key) = true.
Proof. unfold changed_keys. apply filter_In. Qed.

Lemma prop_get_absent p key : ~ In key (prop_keys p) -> prop_get p key = VUndefined.
Proof.
  induction p as [|[k v] p IH]; intros Hk; [reflexivity|].
  cbn [prop_get]. destruct (decide (k = key)) as [->|Hne].
  - exfalso. apply Hk. left. reflexivity.
  - apply IH. intros Hin. apply Hk. right. exact Hin.
Qed.

(** What the code does for a key that the old props do not have: it calls
    [patchProp] when the new value is not [undefined] (or is [NaN]), and only
    then. *)
Lemma changed_keys_absent v1 p key :
  ~ In key (prop_keys (default [] (props v1))) ->
  In key (changed_keys (OldNode v1) p) <->
  In key (prop_keys p) /\ strict_ne (prop_get p key) VUndefined = true.
Proof.
  intros Habs. rewrite changed_keys_spec. cbn [old_prop_value].
  rewrite (prop_get_absent _ _ Habs). reflexivity.
Qed.

End PropClaims.

(** * The properties at work *)

(** ** Text *)

(** The payload "a" of a mounted text node becomes "b": one [setText]. *)
Lemma text_patch_minimal_witness :
  type (text_vnode "b" None) = Text /\
  is_nullish (OldNode demo_old_text) = false /\
  Later.patch dom_options demo_components 1
    (OldNode demo_old_text) (text_vnode "b" None) (Some 1) dom_later
  = (Ok (text_vnode "b" (Some 2)),
     mkState (mkDom 10 [] [(2, ChildrenText "b")] [])
       [OpSetText (Some 2) (ChildrenText "b")] []) /\
  Earlier.patch dom_options 1
    (OldNode demo_old_text) (text_vnode "b" None) (Some 1) dom_later
  = (Ok (text_vnode "b" (Some 2)),
     mkState (mkDom 10 [] [(2, ChildrenText "b")] [])
       [OpSetText (Some 2) (ChildrenText "b")] []).
Proof.
  split; [reflexivity|]. split; [reflexivity|].
  exact (text_patch_minimal dom_options demo_components 0
           (OldNode demo_old_text) (text_vnode "b" None) (Some 1) dom_later
           eq_refl eq_refl).
Defined.

(** The same payload again: no host call. *)
Example text_patch_same_payload :
  Later.patch dom_options demo_components 1
    (OldNode demo_old_text) (text_vnode "a" None) (Some 1) dom_later
  = (Ok (text_vnode "a" (Some 2)), dom_later).
Proof. reflexivity. Qed.

(** ** Props *)

(** C2. The key [id] is in the new props with the value [undefined] and is
    not in the old props: the patch makes no [patchProp] call for it, and no
    host call at all, where a mount of the same VNode applies the prop. *)
Theorem patch_skips_undefined_prop_absent_from_old :
  In "id" (prop_keys (default [] (props demo_undefined_id_div))) /\
  ~ In "id" (prop_keys (default [] (props demo_bare_div))) /\
  Later.patch dom_options demo_components 1
    (OldNode demo_bare_div) demo_undefined_id_div (Some 0) dom_later
  = (Ok (set_el demo_undefined_id_div (Some 1)), dom_later) /\
  trace (Later.patch dom_options demo_components 1
           OldNull demo_undefined_id_div (Some 0) dom_later).2
  = [OpCreateElement (Tag "div"); OpPatchProp (Some 10) "id" VUndefined;
     OpInsert (Some 10) (Some 0)].
Proof.
  split; [left; reflexivity|]. split; [intros []|]. split; reflexivity.
Qed.

(** Old props [{id: "x", class: "c"}] against new props
    [{id: "x", class: "d"}]: [patchProp] is called for [class] and not for
    [id]. *)
Example prop_patch_only_class :
  changed_keys (OldNode demo_old_div) (default [] (props demo_new_div)) = ["class"] /\
  trace (Later.patch dom_options demo_components 2
           (OldNode demo_old_div) demo_new_div (Some 0) dom_later).2
  = [OpSetText (Some 2) (ChildrenText "b"); OpSetText (Some 3) (ChildrenText "a");
     OpPatchProp (Some 1) "class" (VString "d")].
Proof. split; reflexivity. Qed.

(** ** Children *)


(** The old children ["a"; "b"] against the new children ["b"; "a"]: the
    first old node is given the text "b" and the second the text "a"; the old
    node that has the same text is not looked for. *)
Example children_swapped :
  trace (patchChildren (Later.patch dom_options demo_components 1)
           (OldNode demo_old_div) demo_new_div (Some 1) dom_later).2
  = [OpSetText (Some 2) (ChildrenText "b"); OpSetText (Some 3) (ChildrenText "a")].
Proof. reflexivity. Qed.

(** [demo_old_div], with its two children, patched against [demo_short_div],
    which has one. *)
Lemma trailing_old_children_untouched_witness :
  type demo_short_div = Tag "div" /\
  children demo_old_div
    = ChildrenArray ([ChildVNode (text_vnode "a" (Some 2))]
                       ++ [ChildVNode (text_vnode "b" (Some 3))]) /\
  children demo_short_div = ChildrenArray [RawText "a"] /\
  length [@RawText VNode "a"] <= length [ChildVNode (text_vnode "a" (Some 2))] /\
  Later.patch dom_options demo_components 2
    (OldNode demo_old_div) demo_short_div (Some 0) dom_later
  = Later.patch dom_options demo_components 2
      (OldNode (set_children demo_old_div
                  (ChildrenArray [ChildVNode (text_vnode "a" (Some 2))])))
      demo_short_div (Some 0) dom_later.
Proof.
  split; [reflexivity|]. split; [reflexivity|]. split; [reflexivity|].
  split; [cbn; lia|].
  exact (trailing_old_children_untouched dom_options demo_components 2 demo_old_div
           [ChildVNode (text_vnode "a" (Some 2))] [ChildVNode (text_vnode "b" (Some 3))]
           demo_short_div "div" [RawText "a"] (Some 0) dom_later
           eq_refl eq_refl eq_refl (le_n 1)).
Defined.

(** One new child against two old ones: no host call, the second old node
    stays as it is. *)
Example shorter_child_list :
  Later.patch dom_options demo_components 2
    (OldNode demo_old_div) demo_short_div (Some 0) dom_later
  = (Ok (mkVNode (Tag "div") (Some [("id", VString "x"); ("class", VString "c")])
           (ChildrenArray [ChildVNode (text_vnode "a" (Some 2))]) (Some 1) None),
     dom_later).
Proof. reflexivity. Qed.

(** ** Mounting an element *)

(** The mount of [demo_app_div] in an empty document: the element, its text
    child, its prop, and last its insertion. *)
Lemma mount_element_order_witness :
  type demo_app_div = Tag "div" /\
  Later.patch dom_options demo_components 2 OldNull demo_app_div (Some 0) dom_start
    = (Ok demo_app_div_mounted, demo_app_state []) /\
  exists node h1 cs s2 tr,
    createElement dom_options (Tag "div") (host dom_start) = (node, h1) /\
    mountChildren (Later.patch dom_options demo_components 1) (children demo_app_div)
      (Some node)
      (mkState h1 (trace dom_start ++ [OpCreateElement (Tag "div")]) (instances dom_start))
      = (Ok cs, s2) /\
    (forall items, children demo_app_div = ChildrenArray items ->
       exists items', cs = ChildrenArray items' /\
         patch_each (Later.patch dom_options demo_components 1)
           (fun _ => ret OldNull) (Some node) 0 items
           (mkState h1 (trace dom_start ++ [OpCreateElement (Tag "div")])
              (instances dom_start))
           = (Ok items', s2)) /\
    trace s2 = trace dom_start ++ [OpCreateElement (Tag "div")] ++ tr /\
    trace (demo_app_state [])
      = trace dom_start ++ [OpCreateElement (Tag "div")] ++ tr
          ++ prop_ops (Some node) (default [] (props demo_app_div))
               (prop_keys (default [] (props demo_app_div)))
          ++ [OpInsert (Some node) (Some 0)] /\
    demo_app_div_mounted = set_children (set_el demo_app_div (Some node)) cs.
Proof.
  split; [reflexivity|]. split; [reflexivity|].
  exact (mount_element_order dom_options demo_components 1 demo_app_div "div" (Some 0)
           dom_start (demo_app_state []) demo_app_div_mounted eq_refl eq_refl).
Defined.

(** ** Components *)

(** The first run of the render effect of an instance of component 0. *)
Lemma first_render_mounts_witness :
  instances demo_fresh_state !! 0 = Some demo_fresh_instance /\
  i_isMounted demo_fresh_instance = false /\
  i_render demo_fresh_instance = Some demo_render0 /\
  Later.patch dom_options demo_components 2 OldNull
    (normalizeVNode (demo_render0 (i_props demo_fresh_instance))) (Some 0)
    (with_instance demo_fresh_state 0
       (with_subTree (Some (normalizeVNode (demo_render0 (i_props demo_fresh_instance))))
          demo_fresh_instance))
    = (Ok demo_app_div_mounted,
       demo_app_state [with_subTree (Some demo_app_div) demo_fresh_instance]) /\
  instances (demo_app_state [with_subTree (Some demo_app_div) demo_fresh_instance]) !! 0
    = Some (with_subTree (Some demo_app_div) demo_fresh_instance) /\
  Later.componentUpdateFn dom_options (Later.patch dom_options demo_components 2)
    0 (Some 0) demo_fresh_state
  = (Ok tt,
     demo_app_state
       [mkInstance (Comp 0)
          (mkVNode (Comp 0) (Some []) (ChildrenArray []) (Some 1) (Some 0))
          None [] (Some demo_render0) (Some demo_app_div_mounted) true (Some (Some 0))]).
Proof.
  split; [reflexivity|]. split; [reflexivity|]. split; [reflexivity|].
  split; [reflexivity|]. split; [reflexivity|].
  exact (first_render_mounts dom_options (Later.patch dom_options demo_components 2)
           0 (Some 0) demo_fresh_state
           (demo_app_state [with_subTree (Some demo_app_div) demo_fresh_instance])
           demo_fresh_instance (with_subTree (Some demo_app_div) demo_fresh_instance)
           demo_render0 demo_app_div_mounted
           eq_refl eq_refl eq_refl eq_refl eq_refl).
Defined.

(** The mounted instance of component 1 is given the prop [n = "b"] by its
    parent: its text node is given the text "b". *)
Lemma component_update_witness :
  component (i_vnode demo_mounted_instance) = Some 0 /\
  instances demo_mounted_state !! 0 = Some demo_mounted_instance /\
  i_isMounted demo_mounted_instance = true /\
  i_update demo_mounted_instance = Some (Some 1) /\
  i_render demo_mounted_instance = Some demo_render1 /\
  i_subTree demo_mounted_instance = Some (text_vnode "a" (Some 2)) /\
  Later.patch dom_options demo_components 1
    (OldNode (text_vnode "a" (Some 2))) (text_vnode "b" None) (Some 1)
    (with_call
       (with_instance demo_mounted_state 0
          (mkInstance (Comp 1)
             (mkVNode (Comp 1) (Some [("n", VString "b")]) (ChildrenArray [])
                (Some 2) (Some 0))
             None [("n", VString "b")] (Some demo_render1)
             (Some (text_vnode "b" None)) true (Some (Some 1))))
       (OpParentNode (Some 2)) (host demo_mounted_state))
    = (Ok (text_vnode "b" (Some 2)),
       mkState (mkDom 10 [(2, 1)] [(2, ChildrenText "b"); (2, ChildrenText "a")] [])
         [OpParentNode (Some 2); OpSetText (Some 2) (ChildrenText "b")]
         [mkInstance (Comp 1)
            (mkVNode (Comp 1) (Some [("n", VString "b")]) (ChildrenArray [])
               (Some 2) (Some 0))
            None [("n", VString "b")] (Some demo_render1)
            (Some (text_vnode "b" None)) true (Some (Some 1))]) /\
  Later.updateComponent dom_options (Later.patch dom_options demo_components 1)
    (OldNode (i_vnode demo_mounted_instance)) demo_next_vnode demo_mounted_state
  = (Ok (mkVNode (Comp 1) (Some [("n", VString "b")]) (ChildrenArray [])
           (Some 2) (Some 0)),
     mkState (mkDom 10 [(2, 1)] [(2, ChildrenText "b"); (2, ChildrenText "a")] [])
       [OpParentNode (Some 2); OpSetText (Some 2) (ChildrenText "b")]
       [mkInstance (Comp 1)
          (mkVNode (Comp 1) (Some [("n", VString "b")]) (ChildrenArray [])
             (Some 2) (Some 0))
          None [("n", VString "b")] (Some demo_render1)
          (Some (text_vnode "b" (Some 2))) true (Some (Some 1))]).
Proof.
  repeat (split; [reflexivity|]).
  exact (component_update dom_options (Later.patch dom_options demo_components 1)
           (i_vnode demo_mounted_instance) demo_next_vnode 0 demo_mounted_state
           _ demo_mounted_instance _ demo_render1 (text_vnode "a" (Some 2)) (Some 1)
           (text_vnode "b" (Some 2))
           eq_refl eq_refl eq_refl eq_refl eq_refl eq_refl eq_refl eq_refl).
Defined.

(** Component 3 has no [setup]: mounting it throws. *)
Lemma mount_without_setup_fails_witness :
  type (createVNode (Comp 3) (Some []) (ChildrenArray [])) = Comp 3 /\
  setup (demo_components 3) = None /\
  Later.patch dom_options demo_components 1 OldNull
    (createVNode (Comp 3) (Some []) (ChildrenArray [])) (Some 0) dom_start
  = (Throw TypeError,
     mkState dom_empty []
       [mkInstance (Comp 3)
          (mkVNode (Comp 3) (Some []) (ChildrenArray []) None (Some 0))
          None [] None None false (Some (Some 0))]) /\
  Later.render dom_options demo_components 1 3 (Some 0) dom_start
  = (Throw TypeError,
     mkState dom_empty []
       [mkInstance (Comp 3)
          (mkVNode (Comp 3) (Some []) (ChildrenArray []) None (Some 0))
          None [] None None false (Some (Some 0))]).
Proof.
  split; [reflexivity|]. split; [reflexivity|].
  pose proof (mount_without_setup_fails dom_options demo_components 0 3
                (createVNode (Comp 3) (Some []) (ChildrenArray [])) (Some 0) dom_start
                eq_refl eq_refl) as [Hpatch Hrender].
  split; [exact Hpatch|exact (Hrender eq_refl)].
Defined.

(** A component without [setup] among the children of an element: the mount
    of the element fails with it, after the host calls made before it. *)
Example mount_failure_propagates :
  Later.patch dom_options demo_components 3 OldNull
    (createVNode (Tag "div") (Some [("id", VString "app")])
       (ChildrenArray [RawText "a";
                       ChildVNode (createVNode (Comp 3) None (ChildrenArray []));
                       RawText "b"]))
    (Some 0) dom_start
  = (Throw TypeError,
     mkState (mkDom 3 [(2, 1)] [(2, ChildrenText "a")] [])
       [OpCreateElement (Tag "div"); OpCreateText (ChildrenText "a");
        OpInsert (Some 2) (Some 1)]
       [mkInstance (Comp 3)
          (mkVNode (Comp 3) None (ChildrenArray []) None (Some 0))
          None [] None None false (Some (Some 1))]).
Proof. reflexivity. Qed.

(** ** The two revisions *)

(** Both revisions patch [demo_old_div] against [demo_new_div] alike. *)
Lemma revisions_agree_without_components_witness :
  component_free demo_new_div = true /\
  Earlier.patch dom_options 2 (OldNode demo_old_div) demo_new_div (Some 0) dom_later
  = Later.patch dom_options demo_components 2
      (OldNode demo_old_div) demo_new_div (Some 0) dom_later.
Proof.
  split; [reflexivity|].
  exact (revisions_agree_without_components dom_options demo_components 2
           (OldNode demo_old_div) demo_new_div (Some 0) dom_later eq_refl).
Defined.

(** The spec's end-to-end scenario: the root component renders
    [<div id="app">count: 0</div>] into an empty container. *)
Example render_root :
  Later.render dom_options demo_components 3 0 (Some 0) dom_start
  = (Ok (mkVNode (Comp 0) (Some []) (ChildrenArray []) (Some 1) (Some 0)),
     demo_app_state
       [mkInstance (Comp 0)
          (mkVNode (Comp 0) (Some []) (ChildrenArray []) (Some 1) (Some 0))
          None [] (Some demo_render0) (Some demo_app_div_mounted) true (Some (Some 0))]).
Proof. reflexivity. Qed.

(** * Further properties of the engine *)

(** ** Old children that are not there *)

Section EdgeCases.
Context {H : Type} (options : RendererOptions H) (components : nat -> Component).

Lemma children_index_past_end (olds : list VNodeChild) i :
  length olds <= i -> children_index (ChildrenArray olds) i = OldUndefined.
Proof.
  intros Hi. unfold children_index. rewrite lookup_ge_None_2 by assumption. reflexivity.
Qed.

(** A new [Text] child at an index past the end of the old child list is
    mounted: [c1[i]] is [undefined] there, which [processText] takes for an
    absent old VNode, so the text node is created and inserted. *)
Theorem new_text_child_past_end_is_mounted fuel (olds : list VNodeChild) i n2
    container (s : State H) :
  length olds <= i ->
  type n2 = Text ->
  let old := children_index (ChildrenArray olds) i in
  let created := createText options (children n2) (host s) in
  let after :=
    (Ok (set_el n2 (Some created.1)),
     mkState (insert options (Some created.1) container created.2)
       (trace s ++ [OpCreateText (children n2); OpInsert (Some created.1) container])
       (instances s)) in
  Later.patch options components (S fuel) old n2 container s = after /\
  Earlier.patch options (S fuel) old n2 container s = after.
Proof.
  intros Hi Ht old created after. subst old. rewrite children_index_past_end by assumption.
  cbn [Later.patch Earlier.patch]. unfold Later.patch_body, Earlier.patch_body.
  rewrite Ht. unfold processText. cbn [is_nullish]. run.
  unfold hostCreateText. subst after created.
  destruct (createText options (children n2) (host s)) as [node h].
  cbv beta iota. unfold hostInsert, log. cbn. rewrite <- !app_assoc. split; reflexivity.
Qed.

(** A new element or component child at an index past the end of the old
    child list makes the patch throw: [processElement] and [processComponent]
    mount on [null] only, and what they find is [undefined], whose [el] or
    [component] cannot be read.  No host call is made for that child. *)
Theorem new_element_child_past_end_throws fuel (olds : list VNodeChild) i n2
    container (s : State H) :
  length olds <= i ->
  type n2 <> Text ->
  let old := children_index (ChildrenArray olds) i in
  Later.patch options components (S fuel) old n2 container s = (Throw TypeError, s) /\
  Earlier.patch options (S fuel) old n2 container s = (Throw TypeError, s).
Proof.
  intros Hi Ht old. subst old. rewrite children_index_past_end by assumption.
  cbn [Later.patch Earlier.patch]. unfold Later.patch_body, Earlier.patch_body.
  destruct (type n2); [congruence| |]; split; reflexivity.
Qed.

(** Patching a component VNode against an old VNode that has no instance (an
    element, a text node or a string in its place) throws before anything is
    done: there is no instance to hand the new VNode to. *)
Theorem component_patch_without_instance_throws fuel n1 n2 c container (s : State H) :
  type n2 = Comp c ->
  is_null n1 = false ->
  old_instance n1 = None ->
  Later.patch options components (S fuel) n1 n2 container s = (Throw TypeError, s).
Proof.
  intros Ht Hn Hi. cbn [Later.patch]. unfold Later.patch_body. rewrite Ht.
  unfold Later.processComponent. rewrite Hn. unfold Later.updateComponent.
  destruct n1 as [| |t|v]; try discriminate; try reflexivity.
  cbn in Hi. cbn [old_component]. run. rewrite Hi. reflexivity.
Qed.

(** An element whose [children] is a text payload, not an array.  With a
    payload that is not empty the loops over children throw at their first
    step: a mount stops right after [createElement], without a prop applied
    and without the element inserted; a patch stops before any host call. *)
Theorem element_with_text_payload_throws fuel n1 n2 tag t container (s : State H) :
  type n2 = Tag tag ->
  children n2 = ChildrenText t ->
  String.length t <> 0 ->
  let created := createElement options (Tag tag) (host s) in
  Later.patch options components (S fuel) OldNull n2 container s
    = (Throw TypeError,
       mkState created.2 (trace s ++ [OpCreateElement (Tag tag)]) (instances s)) /\
  (is_nullish n1 = false ->
   Later.patch options components (S fuel) n1 n2 container s = (Throw TypeError, s)).
Proof.
  intros Ht Hc Hlen created. cbn [Later.patch]. unfold Later.patch_body. rewrite Ht.
  unfold processElement. split.
  - cbn [is_null]. rewrite mountElement_run. cbv zeta. rewrite Ht. subst created.
    destruct (createElement options (Tag tag) (host s)) as [node h1].
    rewrite Hc. unfold mountChildren. destruct (decide _); [contradiction|reflexivity].
  - intros Hn. replace (is_null n1) with false by (destruct n1; try discriminate; reflexivity).
    rewrite patchElement_run by assumption. cbv zeta.
    unfold patchChildren. run. rewrite old_children_run by assumption. cbv beta iota.
    cbn [children set_el]. rewrite Hc. destruct (decide _); [contradiction|reflexivity].
Qed.

(** With an empty payload there is no child to go through: the element is
    mounted as one without children. *)
Theorem element_with_empty_text_payload_mounts fuel n2 tag container (s : State H) :
  type n2 = Tag tag ->
  children n2 = ChildrenText "" ->
  let created := createElement options (Tag tag) (host s) in
  let p := default [] (props n2) in
  Later.patch options components (S fuel) OldNull n2 container s
    = (Ok (set_el n2 (Some created.1)),
       mkState
         (insert options (Some created.1) container
            (prop_host options (Some created.1) p (prop_keys p) created.2))
         (trace s ++ [OpCreateElement (Tag tag)]
            ++ prop_ops (Some created.1) p (prop_keys p)
            ++ [OpInsert (Some created.1) container])
         (instances s)).
Proof.
  intros Ht Hc created p. cbn [Later.patch]. unfold Later.patch_body. rewrite Ht.
  unfold processElement. cbn [is_null]. rewrite mountElement_run. cbv zeta. rewrite Ht.
  subst created. destruct (createElement options (Tag tag) (host s)) as [node h1].
  rewrite Hc. cbn [mountChildren]. cbn [String.length].
  destruct (decide (0 = 0)) as [_|Hne]; [|contradiction]. rewrite ret_run.
  cbv beta iota. cbn [fst snd host trace instances]. subst p.
  rewrite <- app_assoc. f_equal. f_equal.
  destruct n2 as [ty pr ch e i]. cbn in *. subst ch. reflexivity.
Qed.
End EdgeCases.

(** ** The props of a patch, and a mount that fails *)

Section MoreElements.
Context {H : Type} (options : RendererOptions H) (components : nat -> Component).


(** When the mount of an element throws, it is a child that threw: the state
    is the one the mount of the children stopped in.  The element was
    created, none of its props was applied and it was not inserted. *)
Theorem failed_mount_stops_in_children fuel vnode tag container (s s' : State H) e :
  type vnode = Tag tag ->
  Later.patch options components (S fuel) OldNull vnode container s = (Throw e, s') ->
  exists node h1,
    createElement options (Tag tag) (host s) = (node, h1) /\
    mountChildren (Later.patch options components fuel) (children vnode) (Some node)
      (mkState h1 (trace s ++ [OpCreateElement (Tag tag)]) (instances s))
      = (Throw e, s').
Proof.
  intros Ht Hrun. cbn [Later.patch] in Hrun. unfold Later.patch_body in Hrun.
  rewrite Ht in Hrun. unfold processElement in Hrun. cbn [is_null] in Hrun.
  rewrite mountElement_run in Hrun. cbv zeta in Hrun. rewrite Ht in Hrun.
  destruct (createElement options (Tag tag) (host s)) as [node h1].
  exists node, h1. split; [reflexivity|].
  destruct (mountChildren _ (children vnode) (Some node) _) as [[cs|e'|] s2];
    try discriminate.
  injection Hrun as -> ->. reflexivity.
Qed.
End MoreElements.

(** ** Rendering the same tree again *)

Section Rerender.
Context {H : Type} (options : RendererOptions H) (components : nat -> Component).

Lemma well_formed_not_comp v c : well_formed v = true -> type v <> Comp c.
Proof. intros Hw Ht. destruct v as [t p cs e i]. cbn in *. subst t. discriminate. Qed.

Lemma all_children_Forall f (l : list VNodeChild) :
  all_children f l = true -> Forall (fun c => match c with
                                             | RawText _ => True
                                             | ChildVNode v => f v = true
                                             end) l.
Proof.
  induction l as [|c l IH]; intros Ha; constructor.
  - destruct c as [t|v]; [exact I|]. cbn in Ha. apply andb_prop in Ha. apply Ha.
  - apply IH. destruct c as [t|v]; [exact Ha|]. cbn in Ha. apply andb_prop in Ha. apply Ha.
Qed.

Lemma well_formed_children v tag items :
  well_formed v = true ->
  type v = Tag tag ->
  children v = ChildrenArray items ->
  Forall (fun c => well_formed (normalizeVNode c) = true) items.
Proof.
  intros Hw Ht Hc. destruct v as [t p cs e i]. cbn in Ht, Hc. subst t cs.
  cbn [well_formed type children props] in Hw. apply andb_prop in Hw as [_ Hw].
  apply all_children_Forall in Hw. eapply Forall_impl; [exact Hw|].
  intros [t|v] Hx; [reflexivity|exact Hx].
Qed.

Lemma well_formed_props v tag :
  well_formed v = true -> type v = Tag tag -> no_NaN (default [] (props v)) = true.
Proof.
  intros Hw Ht. destruct v as [t p cs e i]. cbn in Ht. subst t.
  cbn [well_formed type children props] in Hw. apply andb_prop in Hw as [Hw _]. exact Hw.
Qed.

Lemma prop_get_no_NaN p key : no_NaN p = true -> prop_get p key <> VNaN.
Proof.
  induction p as [|[k v] p IH]; intros Hn; [discriminate|].
  cbn in Hn. apply andb_prop in Hn as [Hv Hn]. cbn [prop_get].
  destruct (decide (k = key)); [|auto].
  apply negb_true_iff, bool_decide_eq_false in Hv. exact Hv.
Qed.

Lemma strict_ne_same v : v <> VNaN -> strict_ne v v = false.
Proof.
  intros Hv. unfold strict_ne, strict_eq.
  destruct v; try contradiction; cbn; rewrite bool_decide_eq_true_2; reflexivity.
Qed.

(** With the props they were mounted with, no key counts as changed. *)
Lemma changed_keys_same m p :
  no_NaN p = true -> default [] (props m) = p -> changed_keys (OldNode m) p = [].
Proof.
  intros Hn Hp. unfold changed_keys. cbn [old_prop_value]. rewrite Hp.
  induction (prop_keys p) as [|key keys IH]; [reflexivity|].
  cbn [List.filter]. rewrite strict_ne_same by (apply prop_get_no_NaN, Hn). exact IH.
Qed.

Lemma state_with_nothing_added (s : State H) :
  mkState (host s) (trace s ++ []) (instances s) = s.
Proof. destruct s. cbn. rewrite app_nil_r. reflexivity. Qed.

(** Children that were mounted, patched against the children they were
    mounted from: nothing happens, child after child. *)
Lemma patch_each_again (mount again : PatchFn H) cs :
  Forall (fun c => forall k s m s',
            mount OldNull (normalizeVNode c) k s = (Ok m, s') ->
            forall k' s2, again (OldNode m) (normalizeVNode c) k' s2 = (Ok m, s2)) cs ->
  forall i k (s s' : State H) r,
  patch_each mount (fun _ => ret OldNull) k i cs s = (Ok r, s') ->
  forall pre k' s2, length pre = i ->
  patch_each again (old_index (Some (ChildrenArray (pre ++ r)))) k' i cs s2 = (Ok r, s2).
Proof.
  intros Hall. induction Hall as [|c cs Hc Hall IH]; intros i k s s' r Hrun pre k' s2 Hpre.
  - injection Hrun as <- _. reflexivity.
  - cbn [patch_each] in Hrun. rewrite bind_run, ret_run in Hrun. cbv beta iota in Hrun.
    rewrite bind_run in Hrun.
    destruct (mount OldNull (normalizeVNode c) k s) as [[ch|e|] s1] eqn:Hm; try discriminate.
    rewrite bind_run in Hrun.
    destruct (patch_each mount _ k (S i) cs s1) as [[r'|e|] s3] eqn:Hr; try discriminate.
    injection Hrun as <- _.
    cbn [patch_each]. run. cbn [old_index]. run.
    unfold children_index. rewrite list_lookup_middle by (symmetry; exact Hpre).
    rewrite (Hc k s ch s1 Hm k' s2). cbv beta iota. run.
    specialize (IH (S i) k s1 s3 r' Hr (pre ++ [ChildVNode ch]) k' s2).
    rewrite <- app_assoc in IH. cbn [app] in IH. rewrite IH; [reflexivity|].
    rewrite length_app. cbn [length]. lia.
Qed.

(** Patching a tree that was just mounted against the very description it
    was mounted from does nothing, in the later revision. *)
Lemma patch_again_idle fuel : forall n container (s s' : State H) m,
  well_formed n = true ->
  Later.patch options components fuel OldNull n container s = (Ok m, s') ->
  forall fuel' container' (s2 : State H),
  height n <= fuel' ->
  Later.patch options components fuel' (OldNode m) n container' s2 = (Ok m, s2).
Proof.
  induction fuel as [|fuel IH]; intros n container s s' m Hw Hrun fuel' container' s2 Hh;
    [discriminate|].
  destruct fuel' as [|fuel']; [destruct n; cbn in Hh; lia|].
  cbn [Later.patch] in Hrun |- *. unfold Later.patch_body in Hrun |- *.
  destruct (type n) as [|tag|c] eqn:Ht.
  - (* a text node *)
    unfold processText in Hrun. cbn [is_nullish] in Hrun.
    rewrite bind_run in Hrun. unfold hostCreateText in Hrun.
    destruct (createText options (children n) (host s)) as [node h].
    cbv beta iota in Hrun. injection Hrun as <- _.
    rewrite processText_mounted by reflexivity.
    cbn [old_host_ref old_payload el children set_el].
    destruct n as [t p cs e i]. cbn in Ht. subst t. cbn in Hw |- *.
    destruct cs as [txt|items]; [|discriminate]. cbn.
    rewrite bool_decide_eq_true_2 by reflexivity. reflexivity.
  - (* an element *)
    pose proof (well_formed_props n tag Hw Ht) as Hnan.
    unfold processElement in Hrun |- *. cbn [is_null] in Hrun |- *.
    rewrite mountElement_run in Hrun. cbv zeta in Hrun.
    destruct (createElement options (type n) (host s)) as [node h1].
    rewrite patchElement_run by reflexivity. cbv zeta.
    destruct (mountChildren _ (children n) (Some node) _) as [[cs'|e|] s1] eqn:Hm;
      try discriminate.
    injection Hrun as <- _. cbn [old_host_ref el set_el set_children].
    assert (Hchildren :
      patchChildren (Later.patch options components fuel')
        (OldNode (set_children (set_el n (Some node)) cs')) (set_el n (Some node))
        (Some node) s2 = (Ok cs', s2)).
    { destruct (children n) as [txt|items] eqn:Hc.
      - unfold mountChildren in Hm. destruct (decide _); [|discriminate].
        injection Hm as <- _. unfold patchChildren. cbn [old_children]. run.
        cbn [children set_el]. rewrite Hc. destruct (decide _); [reflexivity|contradiction].
      - rewrite mountChildren_each, bind_run in Hm.
        destruct (patch_each _ _ (Some node) 0 items _) as [[r|e|] s3] eqn:Hr;
          try discriminate.
        injection Hm as <- _.
        rewrite (patchChildren_each _ _ _ items) by (cbn [children set_el]; exact Hc).
        cbn [old_children children set_children]. run.
        change (ChildrenArray r) with (@ChildrenArray VNode ([] ++ r)).
        erewrite patch_each_again; [reflexivity| |exact Hr|reflexivity].
        pose proof (well_formed_children n tag items Hw Ht Hc) as Hwf.
        pose proof (height_children n items Hc) as Hlow.
        rewrite Forall_forall in Hwf, Hlow. apply Forall_forall.
        intros c Hin k s0 m0 s0' Hmount k' s0''.
        eapply IH; [apply Hwf, Hin|exact Hmount|].
        specialize (Hlow c Hin). lia. }
    rewrite Hchildren.
    rewrite (changed_keys_same _ (default [] (props n))) by (assumption || reflexivity).
    cbn [prop_host prop_ops fold_left map]. rewrite state_with_nothing_added.
    reflexivity.
  - exfalso. eapply well_formed_not_comp; eassumption.
Qed.
End Rerender.

(** ** What a mount and an update call the host for *)

Section MountAndUpdate.
Context {H : Type} (options : RendererOptions H) (components : nat -> Component).

Lemma shaped_unfold n m :
  shaped n m =
  match type n with
  | Text => true
  | Tag _ =>
      match children n with
      | ChildrenText t => bool_decide (t = "")
      | ChildrenArray cs =>
          match children m with
          | ChildrenArray ms => shaped_children shaped cs ms
          | ChildrenText _ => match cs with [] => true | _ :: _ => false end
          end
      end
  | Comp _ => false
  end.
Proof. destruct n; reflexivity. Qed.

Lemma nodes_unfold n :
  nodes n = S (match children n with
               | ChildrenText _ => 0
               | ChildrenArray items => nodes_children nodes items
               end).
Proof. destruct n; reflexivity. Qed.


Lemma prop_ops_mount node p keys : forallb is_mount (prop_ops node p keys) = true.
Proof. induction keys as [|k keys IH]; [reflexivity|exact IH]. Qed.

Lemma prop_ops_no_create node p keys : List.filter is_create (prop_ops node p keys) = [].
Proof. induction keys as [|k keys IH]; [reflexivity|exact IH]. Qed.

Lemma prop_ops_no_insert node p keys : List.filter is_insert (prop_ops node p keys) = [].
Proof. induction keys as [|k keys IH]; [reflexivity|exact IH]. Qed.


End MountAndUpdate.

Section Mount.
Context {H : Type} (options : RendererOptions H) (components : nat -> Component).

Lemma count_calls_app kind d1 d2 :
  count_calls kind (d1 ++ d2) = count_calls kind d1 + count_calls kind d2.
Proof. unfold count_calls. rewrite List.filter_app, length_app. reflexivity. Qed.

Lemma count_create_props node p keys : count_calls is_create (prop_ops node p keys) = 0.
Proof. unfold count_calls. rewrite prop_ops_no_create. reflexivity. Qed.

Lemma count_insert_props node p keys : count_calls is_insert (prop_ops node p keys) = 0.
Proof. unfold count_calls. rewrite prop_ops_no_insert. reflexivity. Qed.

Lemma patch_each_mounted (patch : PatchFn H) cs :
  Forall (fun c => forall k s,
            mounted (normalizeVNode c) s (patch OldNull (normalizeVNode c) k s)) cs ->
  forall i k (s : State H),
  exists rs s' d,
    patch_each patch (fun _ => ret OldNull) k i cs s = (Ok rs, s') /\
    trace s' = trace s ++ d /\
    host_calls_only is_mount d /\
    count_calls is_create d = nodes_children nodes cs /\
    count_calls is_insert d = nodes_children nodes cs /\
    instances s' = instances s /\
    shaped_children shaped cs rs = true.
Proof.
  intros Hall. induction Hall as [|c cs Hc Hall IH]; intros i k s.
  - exists [], s, []. cbn. rewrite app_nil_r. repeat (split; [reflexivity|]). reflexivity.
  - destruct (Hc k s) as (m & s1 & d1 & Hrun & Htr1 & Hd1 & Hc1 & Hi1 & Hs1 & Hm1).
    destruct (IH (S i) k s1) as (rs & s2 & d2 & Hrun2 & Htr2 & Hd2 & Hc2 & Hi2 & Hs2 & Hm2).
    exists (ChildVNode m :: rs), s2, (d1 ++ d2).
    cbn [patch_each]. run. rewrite Hrun. cbv beta iota. run. rewrite Hrun2. cbv beta iota.
    assert (Hn : nodes_children nodes (c :: cs)
                 = nodes (normalizeVNode c) + nodes_children nodes cs)
      by (destruct c; reflexivity).
    split; [reflexivity|]. split; [rewrite Htr2, Htr1, app_assoc; reflexivity|].
    split; [unfold host_calls_only in *; rewrite forallb_app, Hd1, Hd2; reflexivity|].
    split; [rewrite count_calls_app, Hn; congruence|].
    split; [rewrite count_calls_app, Hn; congruence|].
    split; [congruence|].
    cbn [shaped_children]. rewrite Hm2, andb_true_r.
    destruct c as [t|v]; [reflexivity|exact Hm1].
Qed.

(** The mount of a tree that is as the types mean it, in the later
    revision. *)
Lemma patch_mounts fuel : forall n container (s : State H),
  well_formed n = true ->
  height n <= fuel ->
  mounted n s (Later.patch options components fuel OldNull n container s).
Proof.
  induction fuel as [|fuel IH]; intros n container s Hw Hh;
    [destruct n; cbn in Hh; lia|].
  cbn [Later.patch]. unfold Later.patch_body.
  destruct (type n) as [|tag|c] eqn:Ht.
  - unfold processText. cbn [is_nullish]. run. unfold hostCreateText at 1.
    destruct (createText options (children n) (host s)) as [node h].
    cbv beta iota. unfold hostInsert, log. run.
    assert (Hn : nodes n = 1).
    { rewrite nodes_unfold. destruct n as [t p cs e i]. cbn in Ht. subst t.
      cbn in Hw |- *. destruct cs; [reflexivity|discriminate]. }
    eexists _, _, [_; _]. split; [reflexivity|]. cbn [trace].
    split; [rewrite <- app_assoc; reflexivity|].
    split; [reflexivity|]. rewrite Hn. split; [reflexivity|]. split; [reflexivity|].
    split; [reflexivity|]. rewrite shaped_unfold, Ht. reflexivity.
  - unfold processElement. cbn [is_null]. rewrite mountElement_run. cbv zeta.
    destruct (createElement options (type n) (host s)) as [node h1].
    set (s1 := mkState h1 (trace s ++ [OpCreateElement (type n)]) (instances s)).
    assert (Hchildren : exists cs s2 d,
      mountChildren (Later.patch options components fuel) (children n) (Some node) s1
        = (Ok cs, s2) /\
      trace s2 = trace s1 ++ d /\ host_calls_only is_mount d /\
      count_calls is_create d + 1 = nodes n /\
      count_calls is_insert d + 1 = nodes n /\
      instances s2 = instances s1 /\
      shaped n (set_children (set_el n (Some node)) cs) = true).
    { destruct (children n) as [txt|items] eqn:Hc.
      - exists (ChildrenText txt), s1, [].
        destruct n as [t p cs e i]. cbn in Ht, Hc. subst t cs.
        cbn [well_formed type children props] in Hw.
        apply andb_prop in Hw as [_ Hw]. apply bool_decide_eq_true in Hw. subst txt.
        cbn. rewrite app_nil_r. repeat (split; [reflexivity|]). reflexivity.
      - pose proof (well_formed_children n tag items Hw Ht Hc) as Hwf.
        pose proof (height_children n items Hc) as Hlow.
        destruct (patch_each_mounted (Later.patch options components fuel) items)
          with (i := 0) (k := Some node) (s := s1)
          as (rs & s2 & d & Hrun & Htr & Hd & Hcr & Hin & Hi & Hs).
        { rewrite Forall_forall in Hwf, Hlow. apply Forall_forall.
          intros c Hc' k s0. apply IH; [apply Hwf, Hc'|].
          specialize (Hlow c Hc'). lia. }
        exists (ChildrenArray rs), s2, d. rewrite mountChildren_each. run.
        rewrite Hrun. rewrite (nodes_unfold n), Hc.
        split; [reflexivity|]. split; [exact Htr|]. split; [exact Hd|].
        split; [lia|]. split; [lia|]. split; [exact Hi|].
        rewrite shaped_unfold, Ht, Hc. cbn [children set_children]. exact Hs. }
    destruct Hchildren as (cs & s2 & d & Hrun & Htr & Hd & Hcr & Hin & Hi & Hs).
    rewrite Hrun.
    eexists _, _, ([OpCreateElement (type n)] ++ d
                     ++ prop_ops (Some node) (default [] (props n))
                          (prop_keys (default [] (props n)))
                     ++ [OpInsert (Some node) container]).
    split; [reflexivity|]. cbn [trace].
    split; [rewrite Htr; subst s1; cbn [trace]; rewrite <- !app_assoc; reflexivity|].
    split; [unfold host_calls_only in *;
            rewrite !forallb_app, Hd, prop_ops_mount; reflexivity|].
    split; [rewrite !count_calls_app, count_create_props;
            change (count_calls is_create [OpCreateElement (type n)]) with 1;
            change (count_calls is_create [OpInsert (Some node) container]) with 0; lia|].
    split; [rewrite !count_calls_app, count_insert_props;
            change (count_calls is_insert [OpCreateElement (type n)]) with 0;
            change (count_calls is_insert [OpInsert (Some node) container]) with 1; lia|].
    split; [rewrite Hi; reflexivity|exact Hs].
  - exfalso. eapply well_formed_not_comp; eassumption.
Qed.
End Mount.

(** ** Both revisions on the trees that are as the types mean them *)

Section BothRevisions.
Context {H : Type} (options : RendererOptions H) (components : nat -> Component).

Lemma component_free_unfold v :
  component_free v =
  match type v with
  | Comp _ => false
  | _ =>
      match children v with
      | ChildrenText _ => true
      | ChildrenArray items => all_children component_free items
      end
  end.
Proof.
  destruct v as [t p cs e i]. cbn [component_free type children].
  destruct t; try reflexivity; destruct cs as [txt|items]; try reflexivity;
    induction items as [|[txt|c] items IH]; cbn [all_children]; try reflexivity;
    try exact IH; rewrite <- IH; reflexivity.
Qed.

Lemma all_children_impl (f g : VNode -> bool) (l : list VNodeChild) :
  Forall (fun c => f (normalizeVNode c) = true -> g (normalizeVNode c) = true) l ->
  all_children f l = true -> all_children g l = true.
Proof.
  induction 1 as [|c l Hc Hall IH]; intros Hf; [reflexivity|].
  destruct c as [txt|v]; cbn [all_children normalizeVNode] in *; [auto|].
  apply andb_prop in Hf as [Hv Hl]. rewrite (Hc Hv), (IH Hl). reflexivity.
Qed.

Lemma well_formed_component_free k : forall n,
  height n <= k -> well_formed n = true -> component_free n = true.
Proof.
  induction k as [|k IH]; intros n Hh Hw; [destruct n; cbn in Hh; lia|].
  rewrite component_free_unfold.
  destruct (type n) as [|tag|c] eqn:Ht.
  - destruct n as [t p cs e i]. cbn in Ht. subst t. cbn in Hw |- *.
    destruct cs; [reflexivity|discriminate].
  - destruct (children n) as [txt|items] eqn:Hc; [reflexivity|].
    pose proof (height_children n items Hc) as Hlow.
    destruct n as [t p cs e i]. cbn in Ht, Hc. subst t cs.
    cbn [well_formed type children props] in Hw. apply andb_prop in Hw as [_ Hw].
    revert Hw. apply all_children_impl.
    eapply Forall_impl; [exact Hlow|]. cbv beta. intros c Hc Hwc.
    apply IH; [lia|exact Hwc].
  - exfalso. eapply well_formed_not_comp; eassumption.
Qed.

(** The two revisions agree on the new trees without components. *)
Lemma patch_agree fuel : forall n1 n2 container (s : State H),
  component_free n2 = true ->
  Earlier.patch options fuel n1 n2 container s
  = Later.patch options components fuel n1 n2 container s.
Proof.
  induction fuel as [|fuel IH]; intros n1 n2 container s Hf; [reflexivity|].
  cbn [Earlier.patch Later.patch]. unfold Earlier.patch_body, Later.patch_body.
  destruct (type n2) eqn:Ht.
  - reflexivity.
  - apply processElement_agree; [|assumption].
    intros m1 m2 c s' Hm. apply IH, Hm.
  - destruct n2 as [t p cs e i]. cbn in Ht. subst t. discriminate.
Qed.

(** The mount of a tree that is as the types mean it, given fuel for its
    height, succeeds in both revisions, and it calls the host to create one
    node and to insert one node for every node of the tree, and otherwise only
    to set props: as many insertions as creations, and no [setText] call.  The
    mounted tree has a VNode wherever the description has a node. *)
Theorem mount_creates_and_inserts_every_node fuel n container (s : State H) :
  well_formed n = true ->
  height n <= fuel ->
  mounted n s (Later.patch options components fuel OldNull n container s) /\
  mounted n s (Earlier.patch options fuel OldNull n container s).
Proof.
  intros Hw Hh.
  assert (Hl : mounted n s (Later.patch options components fuel OldNull n container s))
    by (apply patch_mounts; assumption).
  split; [exact Hl|].
  rewrite (patch_agree fuel) by (eapply well_formed_component_free; eauto).
  exact Hl.
Qed.

(** Patching a tree that was just mounted against the very description it
    was mounted from does nothing, in both revisions: no host call is made,
    the state is left as it is, and the tree comes back as it was.  This holds
    for the trees that are as the types mean them, see [well_formed]. *)
Theorem rerender_of_same_tree_is_idle fuel fuel' n container container'
    (s s' s2 : State H) m :
  well_formed n = true ->
  height n <= fuel' ->
  (Later.patch options components fuel OldNull n container s = (Ok m, s') ->
   Later.patch options components fuel' (OldNode m) n container' s2 = (Ok m, s2)) /\
  (Earlier.patch options fuel OldNull n container s = (Ok m, s') ->
   Earlier.patch options fuel' (OldNode m) n container' s2 = (Ok m, s2)).
Proof.
  intros Hw Hh.
  assert (Hf : component_free n = true) by (eapply well_formed_component_free; eauto).
  split; intros Hrun.
  - eapply patch_again_idle; eassumption.
  - rewrite (patch_agree fuel) in Hrun by assumption.
    rewrite (patch_agree fuel') by assumption.
    eapply patch_again_idle; eassumption.
Qed.
End BothRevisions.

(** ** Components that render a tree without components *)

Section ComponentRuns.
Context {H : Type} (options : RendererOptions H) (components : nat -> Component).

(** Mounting a component whose render function gives a tree that is as the
    types mean it: given fuel for the height of that tree, the mount
    succeeds; its host calls are those of mounting the rendered tree into the
    container, one creation and one insertion for every node; exactly one
    instance is added, mounted, with the props of the VNode and the mounted
    subtree; and the component's VNode is given the host reference of the
    subtree and the instance. *)
Theorem component_mount_mounts_its_render fuel n2 c f container (s : State H) :
  type n2 = Comp c ->
  setup (components c) = Some f ->
  let id := length (instances s) in
  let p := default [] (props n2) in
  let n := normalizeVNode (f p p) in
  well_formed n = true ->
  height n <= fuel ->
  exists m s1 d,
    let vnode := set_el (set_component n2 (Some id)) (el m) in
    Later.patch options components (S fuel) OldNull n2 container s
      = (Ok vnode,
         mkState (host s1) (trace s1)
           (instances s ++ [mkInstance (Comp c) vnode None p (Some (f p)) (Some m)
                              true (Some container)])) /\
    trace s1 = trace s ++ d /\
    host_calls_only is_mount d /\
    count_calls is_create d = nodes n /\
    count_calls is_insert d = nodes n /\
    shaped n m = true.
Proof.
  intros Ht Hs id p n Hw Hh.
  set (inst0 := mkInstance (type n2) n2 None [] None None false None).
  set (s0 := mkState (host s) (trace s) (instances s ++ [inst0])).
  assert (H0 : instances s0 !! id = Some inst0)
    by (apply list_lookup_middle; reflexivity).
  set (pending := mkInstance (type n2) (set_component n2 (Some id)) None p
                    (Some (f p)) (Some n) false (Some container)).
  destruct (patch_mounts options components fuel n container
              (with_instance s0 id pending) Hw Hh)
    as (m & s1 & d & Hrun & Htr & Hd & Hcr & Hin & Hi & Hm).
  exists m, s1, d. cbv zeta. split; [|auto].
  cbn [Later.patch]. unfold Later.patch_body. rewrite Ht.
  unfold Later.processComponent. cbn [is_null]. unfold Later.mountComponent.
  run. unfold createComponentInstance at 1. cbv beta iota zeta. fold id inst0 s0.
  instance_step. instance_step. unfold initProps. instance_step.
  unfold Later.type_setup. rewrite Ht, Hs.
  instance_step. instance_step.
  unfold Later.setupRenderEffect. instance_step.
  unfold effect_run, Later.componentUpdateFn. instance_step.
  unfold inst0. instance_simpl.
  cbn [negb call_render props set_component]. fold p. run. instance_step.
  fold n. run.
  match goal with
  | |- context [Later.patch options components fuel OldNull n container ?st] =>
      replace (Later.patch options components fuel OldNull n container st)
        with (Ok m, s1) by (symmetry; exact Hrun)
  end.
  cbv beta iota.
  assert (H1 : instances s1 !! id = Some pending).
  { rewrite Hi. eapply with_instance_lookup, H0. }
  instance_step. instance_step. instance_step. instance_step.
  cbn [set_el set_component type props children el component].
  unfold with_instance. rewrite Hi. cbn [instances host trace with_instance].
  rewrite list_insert_insert_eq. unfold s0. cbn [instances].
  rewrite (insert_at_end (instances s) [] inst0), app_nil_r.
  unfold pending. instance_simpl. rewrite Ht. reflexivity.
Qed.

End ComponentRuns.

(** ** The root of the earlier revision *)

Section EarlierRootRuns.
Context {H : Type} (options : RendererOptions H).

(** The root [render] of the earlier revision on a component whose render
    function gives a tree that is as the types mean it: the first run of the
    effect mounts the tree, with one creation and one insertion for every
    node, and keeps the mounted tree; a further run of the effect while the
    render function gives the same tree makes no host call and changes
    nothing. *)
Theorem earlier_render_then_rerun fuel c setup container (s : State H) :
  EarlierRoot.root_setup c = Some setup ->
  let n := setup tt tt in
  well_formed n = true ->
  height n <= fuel ->
  exists m s' d,
    EarlierRoot.render options fuel c container s = (Ok (OldNode m), s') /\
    trace s' = trace s ++ d /\
    host_calls_only is_mount d /\
    count_calls is_create d = nodes n /\
    count_calls is_insert d = nodes n /\
    EarlierRoot.updateComponent options fuel (setup tt) container (OldNode m) s'
      = (Ok (OldNode m), s').
Proof.
  intros Hs n Hw Hh.
  assert (Hf : component_free n = true) by (eapply well_formed_component_free; eauto).
  destruct (patch_mounts options (fun _ => mkComponent None) fuel n container s Hw Hh)
    as (m & s' & d & Hrun & Htr & Hd & Hcr & Hin & Hi & Hm).
  rewrite <- (patch_agree options (fun _ => mkComponent None) fuel) in Hrun by assumption.
  exists m, s', d. unfold EarlierRoot.render, EarlierRoot.updateComponent, effect_run.
  rewrite Hs. fold n. run. rewrite Hrun. cbv beta iota. run.
  repeat (split; [reflexivity || assumption|]).
  rewrite (patch_agree options (fun _ => mkComponent None) fuel) in Hrun |- * by assumption.
  rewrite (patch_again_idle options _ fuel n container s s' m Hw Hrun fuel container s' Hh).
  reflexivity.
Qed.

(** Without a [setup] the root [render] throws before anything is done. *)
Lemma earlier_render_without_setup fuel c container (s : State H) :
  EarlierRoot.root_setup c = None ->
  EarlierRoot.render options fuel c container s = (Throw TypeError, s).
Proof. intros Hs. unfold EarlierRoot.render. rewrite Hs. reflexivity. Qed.
End EarlierRootRuns.

(** ** runtime-dom: event listeners and attributes *)

Section RuntimeDomRuns.
Context {A : Type}.
Variable toLocaleLowerCase : string -> string.
Variable patchAttr : string -> value -> A -> A.

(** The four ways of [patchEvent]: patch, add, remove, nothing. *)
Lemma patchEvent_unfold (el : Element A) k v :
  patchEvent toLocaleLowerCase el k v =
  match truthy v, invoker_of el k with
  | true, Some h =>
      mkElement (Some (default ∅ (vei el))) (<[h := v]> (invoker_values el))
        (dom_calls el) (attributes el)
  | true, None =>
      mkElement (Some (<[k := Some (length (invoker_values el))]> (default ∅ (vei el))))
        (invoker_values el ++ [v])
        (dom_calls el ++
           [DomAddEventListener (parseName toLocaleLowerCase k) (length (invoker_values el))])
        (attributes el)
  | false, Some h =>
      mkElement (Some (<[k := None]> (default ∅ (vei el)))) (invoker_values el)
        (dom_calls el ++ [DomRemoveEventListener (parseName toLocaleLowerCase k) h])
        (attributes el)
  | false, None =>
      mkElement (Some (default ∅ (vei el))) (invoker_values el) (dom_calls el)
        (attributes el)
  end.
Proof.
  unfold patchEvent, invoker_of. cbn.
  destruct (truthy v), (default ∅ (vei el) !! k ≫= id); reflexivity.
Qed.

Lemma invoker_of_set (m : gmap string (option nat)) vals calls (a : A) k x k' :
  invoker_of (mkElement (Some (<[k := x]> m)) vals calls a) k'
  = if decide (k' = k) then x else m !! k' ≫= id.
Proof.
  unfold invoker_of. cbn. rewrite lookup_insert.
  destruct (decide (k = k')), (decide (k' = k)); cbn; congruence.
Qed.

Lemma invoker_of_keep (el : Element A) vals calls (a : A) k :
  invoker_of (mkElement (Some (default ∅ (vei el))) vals calls a) k = invoker_of el k.
Proof. reflexivity. Qed.

Lemma listeners_snoc calls c :
  listeners (calls ++ [c]) = dom_listen (listeners calls) c.
Proof. unfold listeners. rewrite fold_left_app. reflexivity. Qed.

(** [patchEvent] keeps the element and the DOM in agreement. *)
Lemma patchEvent_consistent (el : Element A) k v :
  events_consistent toLocaleLowerCase el ->
  events_consistent toLocaleLowerCase (patchEvent toLocaleLowerCase el k v).
Proof.
  intros (Hlt & Hinj & Hls & Hnd). rewrite patchEvent_unfold.
  destruct (truthy v) eqn:Hv, (invoker_of el k) as [h|] eqn:Hk.
  - (* patch *)
    unfold events_consistent. cbn [invoker_values dom_calls].
    setoid_rewrite invoker_of_keep. rewrite length_insert. auto.
  - (* add *)
    unfold events_consistent. cbn [invoker_values dom_calls].
    setoid_rewrite invoker_of_set. fold (invoker_of el).
    rewrite length_app, listeners_snoc. cbn [length dom_listen].
    assert (Hnew : forall e, (e, length (invoker_values el)) ∉ listeners (dom_calls el)).
    { intros e He. apply Hls in He as (k0 & Hk0 & _). apply Hlt in Hk0. lia. }
    destruct (decide _) as [Hin|_]; [destruct (Hnew _ Hin)|].
    split; [|split; [|split]].
    + intros k0 h0. destruct (decide (k0 = k)); intros E.
      * inversion E. lia.
      * apply Hlt in E. lia.
    + intros k1 k2 h0.
      destruct (decide (k1 = k)), (decide (k2 = k)); intros E1 E2; subst; auto.
      * inversion E1; subst. apply Hlt in E2. lia.
      * inversion E2; subst. apply Hlt in E1. lia.
      * eauto.
    + intros e h0. rewrite elem_of_app, list_elem_of_singleton, Hls. split.
      * intros [(k0 & Hk0 & ->)|E].
        -- exists k0. destruct (decide (k0 = k)); [congruence|]. auto.
        -- inversion E; subst. exists k. destruct (decide (k = k)); [auto|congruence].
      * intros (k0 & Hk0 & ->). destruct (decide (k0 = k)).
        -- inversion Hk0; subst. right. reflexivity.
        -- left. eauto.
    + apply NoDup_app. split; [assumption|]. split; [|apply NoDup_singleton].
      intros [e h0] Hin E%list_elem_of_singleton. inversion E; subst.
      exact (Hnew _ Hin).
  - (* remove *)
    unfold events_consistent. cbn [invoker_values dom_calls].
    setoid_rewrite invoker_of_set. fold (invoker_of el).
    rewrite listeners_snoc. cbn [dom_listen].
    split; [|split; [|split]].
    + intros k0 h0. destruct (decide (k0 = k)); [discriminate|]. apply Hlt.
    + intros k1 k2 h0.
      destruct (decide (k1 = k)), (decide (k2 = k)); try discriminate. apply Hinj.
    + intros e h0. rewrite list_elem_of_filter, Hls. split.
      * intros (Hne & k0 & Hk0 & ->). exists k0.
        destruct (decide (k0 = k)); [|auto]. subst. congruence.
      * intros (k0 & Hk0 & ->). destruct (decide (k0 = k)); [discriminate|].
        split; [|eauto]. intros E. inversion E; subst.
        apply n. eapply Hinj; eauto.
    + apply NoDup_filter, Hnd.
  - (* nothing *)
    unfold events_consistent. cbn [invoker_values dom_calls].
    setoid_rewrite invoker_of_keep. auto.
Qed.

(** [patchProp] keeps the element and the DOM in agreement, whatever
    [patchAttr] does to the attributes. *)
Lemma dom_patchProp_consistent (el : Element A) k v :
  events_consistent toLocaleLowerCase el ->
  events_consistent toLocaleLowerCase (dom_patchProp toLocaleLowerCase patchAttr el k v).
Proof.
  intros Hc. unfold dom_patchProp. destruct (isOn k).
  - apply patchEvent_consistent, Hc.
  - exact Hc.
Qed.

Lemma fresh_element_consistent (a : A) :
  events_consistent toLocaleLowerCase (fresh_element a).
Proof.
  unfold events_consistent, fresh_element, invoker_of, listeners. cbn.
  setoid_rewrite lookup_empty. cbn.
  split; [discriminate|]. split; [discriminate|]. split; [|apply NoDup_nil_2].
  intros e h. split; [intros Hin; inversion Hin|intros (k & Hk & _); discriminate].
Qed.

Lemma patch_props_consistent calls (el : Element A) :
  events_consistent toLocaleLowerCase el ->
  events_consistent toLocaleLowerCase (patch_props toLocaleLowerCase patchAttr calls el).
Proof.
  revert el. induction calls as [|[k v] calls IH]; intros el Hc; [exact Hc|].
  cbn. apply IH, dom_patchProp_consistent, Hc.
Qed.
Lemma patch_props_cons k v calls (el : Element A) :
  patch_props toLocaleLowerCase patchAttr ((k, v) :: calls) el
  = patch_props toLocaleLowerCase patchAttr calls
      (dom_patchProp toLocaleLowerCase patchAttr el k v).
Proof. reflexivity. Qed.

(** What the listener of a raw name calls after one [patchEvent]. *)
Lemma patchEvent_handler (el : Element A) k v k' :
  events_consistent toLocaleLowerCase el ->
  handler_of (patchEvent toLocaleLowerCase el k v) k'
  = if decide (k' = k) then (if truthy v then Some v else None)
    else handler_of el k'.
Proof.
  intros (Hlt & Hinj & _ & _). rewrite patchEvent_unfold. unfold handler_of.
  destruct (truthy v) eqn:Hv, (invoker_of el k) as [h|] eqn:Hk;
    cbn [invoker_values]; rewrite ?invoker_of_keep, ?invoker_of_set;
    fold (invoker_of el k'); destruct (decide (k' = k)) as [->|Hne];
    rewrite ?Hk; cbn [mbind option_bind]; try reflexivity.
  - apply list_lookup_insert_eq. eauto.
  - destruct (invoker_of el k') as [h'|] eqn:Hk'; [|reflexivity]. cbn.
    apply list_lookup_insert_ne. intros ->. apply Hne. eauto.
  - apply list_lookup_middle. reflexivity.
  - destruct (invoker_of el k') as [h'|] eqn:Hk'; [|reflexivity]. cbn.
    apply lookup_app_l. eauto.
Qed.

Lemma dom_patchProp_handler (el : Element A) k v k' :
  events_consistent toLocaleLowerCase el ->
  handler_of (dom_patchProp toLocaleLowerCase patchAttr el k v) k'
  = if isOn k && bool_decide (k' = k) then (if truthy v then Some v else None)
    else handler_of el k'.
Proof.
  intros Hc. unfold dom_patchProp. destruct (isOn k); [|reflexivity].
  rewrite patchEvent_handler by exact Hc. cbn [andb].
  destruct (decide (k' = k)) as [->|Hne].
  - rewrite bool_decide_eq_true_2; reflexivity.
  - rewrite bool_decide_eq_false_2; [reflexivity|exact Hne].
Qed.

Lemma patch_props_handler calls (el : Element A) key :
  events_consistent toLocaleLowerCase el ->
  handler_of (patch_props toLocaleLowerCase patchAttr calls el) key
  = fold_left (fun acc kv =>
                 if decide (kv.1 = key)
                 then (if truthy kv.2 then Some kv.2 else None)
                 else acc) (event_calls calls) (handler_of el key).
Proof.
  revert el. induction calls as [|[k v] calls IH]; intros el Hc; [reflexivity|].
  rewrite patch_props_cons.
  rewrite IH by (apply dom_patchProp_consistent, Hc).
  rewrite dom_patchProp_handler by exact Hc.
  unfold event_calls. cbn [List.filter fst]. destruct (isOn k); cbn [andb fold_left fst snd].
  - destruct (decide (k = key)) as [->|Hne].
    + rewrite bool_decide_eq_true_2; reflexivity.
    + rewrite bool_decide_eq_false_2; [reflexivity|congruence].
  - reflexivity.
Qed.

(** The keys that hold an invoker. *)
Lemma patchEvent_live (el : Element A) k v k' :
  bool_decide (is_Some (invoker_of (patchEvent toLocaleLowerCase el k v) k'))
  = if decide (k' = k) then truthy v
    else bool_decide (is_Some (invoker_of el k')).
Proof.
  rewrite patchEvent_unfold.
  destruct (truthy v) eqn:Hv, (invoker_of el k) as [h|] eqn:Hk;
    rewrite ?invoker_of_keep, ?invoker_of_set; fold (invoker_of el k');
    destruct (decide (k' = k)) as [->|Hne]; rewrite ?Hk; try reflexivity.
Qed.

Lemma patchEvent_calls (el : Element A) k v :
  length (dom_calls (patchEvent toLocaleLowerCase el k v))
  = length (dom_calls el)
    + (if Bool.eqb (bool_decide (is_Some (invoker_of el k))) (truthy v) then 0 else 1).
Proof.
  rewrite patchEvent_unfold.
  destruct (truthy v) eqn:Hv, (invoker_of el k) as [h|] eqn:Hk;
    cbn [dom_calls]; rewrite ?length_app; cbn; lia.
Qed.

Lemma transitions_ext f g calls :
  (forall k, f k = g k) -> transitions f calls = transitions g calls.
Proof.
  revert f g. induction calls as [|[k v] calls IH]; intros f g Hfg; [reflexivity|].
  cbn. rewrite Hfg. f_equal. apply IH. intros k'. destruct (decide (k' = k)); auto.
Qed.

Lemma patch_props_calls calls (el : Element A) :
  length (dom_calls (patch_props toLocaleLowerCase patchAttr calls el))
  = length (dom_calls el)
    + transitions (fun k => bool_decide (is_Some (invoker_of el k))) (event_calls calls).
Proof.
  revert el. induction calls as [|[k v] calls IH]; intros el; [cbn; lia|].
  rewrite patch_props_cons.
  rewrite IH. unfold event_calls, dom_patchProp. cbn [List.filter fst].
  destruct (isOn k).
  - cbn [transitions]. rewrite patchEvent_calls, <- Nat.add_assoc. do 2 f_equal.
    apply transitions_ext. intros k'. apply patchEvent_live.
  - reflexivity.
Qed.

(** The attributes after a run are what [patchAttr] makes of the calls for
    the keys that are no event keys. *)
Lemma patch_props_attributes calls (el : Element A) :
  attributes (patch_props toLocaleLowerCase patchAttr calls el)
  = fold_left (fun a kv => patchAttr kv.1 kv.2 a) (attr_calls calls) (attributes el).
Proof.
  revert el. induction calls as [|[k v] calls IH]; intros el; [reflexivity|].
  rewrite patch_props_cons, IH. unfold attr_calls, dom_patchProp. cbn [List.filter fst].
  destruct (isOn k); cbn [negb]; [|reflexivity].
  f_equal. rewrite patchEvent_unfold.
  destruct (truthy v), (invoker_of el k); reflexivity.
Qed.

(** The event side of an element after a run is what the calls for event
    keys alone make of the event side it had. *)
Lemma patch_props_events calls (el1 el2 : Element A) :
  vei el1 = vei el2 ->
  invoker_values el1 = invoker_values el2 ->
  dom_calls el1 = dom_calls el2 ->
  let r1 := patch_props toLocaleLowerCase patchAttr calls el1 in
  let r2 := patch_props toLocaleLowerCase patchAttr (event_calls calls) el2 in
  vei r1 = vei r2 /\ invoker_values r1 = invoker_values r2 /\ dom_calls r1 = dom_calls r2.
Proof.
  revert el1 el2. induction calls as [|[k v] calls IH]; intros el1 el2 Hv Hi Hd; [cbn; auto|].
  unfold event_calls. cbn [List.filter fst]. fold (event_calls calls).
  destruct (isOn k) eqn:Hon; rewrite ?patch_props_cons; apply IH;
    unfold dom_patchProp; rewrite Hon; try assumption;
    rewrite !patchEvent_unfold; unfold invoker_of; rewrite Hv, Hi, Hd;
    destruct (truthy v), (default ∅ (vei el2) !! k ≫= id); reflexivity.
Qed.

(** After any run of [patchProp] calls on an element on which nothing was
    patched yet, the DOM holds exactly the listeners that the element keeps
    in [_vei]: a listener is registered if and only if it is the invoker
    kept for some raw name, under the event name of that raw name; no
    listener is registered twice; and no invoker is kept for two raw
    names. *)
Theorem listeners_are_the_invokers_kept calls (a : A) :
  let el := patch_props toLocaleLowerCase patchAttr calls (fresh_element a) in
  NoDup (listeners (dom_calls el)) /\
  (forall e h, (e, h) ∈ listeners (dom_calls el) <->
               exists k, invoker_of el k = Some h /\ e = parseName toLocaleLowerCase k) /\
  (forall k1 k2 h, invoker_of el k1 = Some h -> invoker_of el k2 = Some h -> k1 = k2).
Proof.
  destruct (patch_props_consistent calls (fresh_element a) (fresh_element_consistent a))
    as (_ & Hinj & Hls & Hnd).
  cbv zeta. auto.
Qed.

(** After any run of [patchProp] calls on an element on which nothing was
    patched yet, the last call for an event key decides: when its value is
    truthy, the element keeps an invoker for the key that calls this value
    and that is registered on the DOM under the event name of the key;
    when it is not, or when there was no call for the key, the element keeps
    no invoker for the key. *)
Theorem last_call_for_an_event_key_decides calls (a : A) key :
  let el := patch_props toLocaleLowerCase patchAttr calls (fresh_element a) in
  match last_handler key (event_calls calls) with
  | Some v =>
      exists h, invoker_of el key = Some h /\
                invoker_values el !! h = Some v /\
                (parseName toLocaleLowerCase key, h) ∈ listeners (dom_calls el)
  | None => invoker_of el key = None
  end.
Proof.
  cbv zeta.
  pose proof (patch_props_consistent calls (fresh_element a) (fresh_element_consistent a))
    as (Hlt & _ & Hls & _).
  pose proof (patch_props_handler calls (fresh_element a) key (fresh_element_consistent a))
    as Hh.
  change (handler_of (fresh_element a) key) with (@None value) in Hh.
  fold (last_handler key (event_calls calls)) in Hh. rewrite <- Hh. clear Hh.
  unfold handler_of.
  destruct (invoker_of _ key) as [h|] eqn:Hk; cbn [mbind option_bind]; [|reflexivity].
  destruct (_ !! h) as [v|] eqn:Hv.
  - exists h. split; [reflexivity|]. split; [exact Hv|]. apply Hls. eauto.
  - apply Hlt in Hk. apply lookup_lt_is_Some in Hk. rewrite Hv in Hk.
    destruct Hk; discriminate.
Qed.

(** The number of DOM calls that a run of [patchProp] calls makes on an
    element on which nothing was patched yet is the number of calls for an
    event key that give the key a handler when it has none or take its
    handler away when it has one: a call that replaces a handler by another
    one, or takes away a handler that is not there, does not reach the
    DOM. *)
Theorem dom_is_called_at_transitions_only calls (a : A) :
  length (dom_calls (patch_props toLocaleLowerCase patchAttr calls (fresh_element a)))
  = transitions (fun _ => false) (event_calls calls).
Proof.
  rewrite patch_props_calls. cbn [fresh_element dom_calls length Nat.add].
  apply transitions_ext. intros k. reflexivity.
Qed.

(** Event keys and the other keys do not meet: after a run of [patchProp]
    calls, the attributes are what [patchAttr] makes of the calls for the
    keys that are no event keys, in their order, and [_vei], the invokers and
    the DOM calls are what the calls for event keys alone would leave. *)
Theorem events_and_attributes_apart calls (el : Element A) :
  let r := patch_props toLocaleLowerCase patchAttr calls el in
  let r' := patch_props toLocaleLowerCase patchAttr (event_calls calls) el in
  attributes r
    = fold_left (fun a kv => patchAttr kv.1 kv.2 a) (attr_calls calls) (attributes el) /\
  vei r = vei r' /\ invoker_values r = invoker_values r' /\ dom_calls r = dom_calls r'.
Proof.
  cbv zeta. split; [apply patch_props_attributes|].
  apply (patch_props_events calls el el); reflexivity.
Qed.
End RuntimeDomRuns.

(** * The further properties at work *)

(** ** Children past the end of the old list *)

(** A second new child, the text "b", against an old list of one child: the
    text node 10 is made and inserted in node 1. *)
Lemma new_text_child_past_end_is_mounted_witness :
  length [ChildVNode (text_vnode "a" (Some 2))] <= 1 /\
  type (text_vnode "b" None) = Text /\
  Later.patch dom_options demo_components 1
    (children_index (ChildrenArray [ChildVNode (text_vnode "a" (Some 2))]) 1)
    (text_vnode "b" None) (Some 1) dom_later
  = (Ok (text_vnode "b" (Some 10)),
     mkState (mkDom 11 [(10, 1)] [(10, ChildrenText "b")] [])
       [OpCreateText (ChildrenText "b"); OpInsert (Some 10) (Some 1)] []) /\
  Earlier.patch dom_options 1
    (children_index (ChildrenArray [ChildVNode (text_vnode "a" (Some 2))]) 1)
    (text_vnode "b" None) (Some 1) dom_later
  = (Ok (text_vnode "b" (Some 10)),
     mkState (mkDom 11 [(10, 1)] [(10, ChildrenText "b")] [])
       [OpCreateText (ChildrenText "b"); OpInsert (Some 10) (Some 1)] []).
Proof.
  split; [cbn; lia|]. split; [reflexivity|].
  exact (new_text_child_past_end_is_mounted dom_options demo_components 0
           [ChildVNode (text_vnode "a" (Some 2))] 1 (text_vnode "b" None) (Some 1)
           dom_later (le_n 1) eq_refl).
Defined.

(** A first new child that is an element against an old list without
    children: a [TypeError], and nothing is done. *)
Lemma new_element_child_past_end_throws_witness :
  length (@nil VNodeChild) <= 0 /\
  type demo_app_div <> Text /\
  Later.patch dom_options demo_components 1
    (children_index (ChildrenArray []) 0) demo_app_div (Some 1) dom_later
  = (Throw TypeError, dom_later) /\
  Earlier.patch dom_options 1
    (children_index (ChildrenArray []) 0) demo_app_div (Some 1) dom_later
  = (Throw TypeError, dom_later).
Proof.
  assert (Ht : type demo_app_div <> Text) by (cbn; discriminate).
  split; [cbn; lia|]. split; [exact Ht|].
  exact (new_element_child_past_end_throws dom_options demo_components 0
           [] 0 demo_app_div (Some 1) dom_later (le_n 0) Ht).
Defined.

(** ** Faults *)

(** A component VNode against an old VNode for which no instance was
    made. *)
Lemma component_patch_without_instance_throws_witness :
  type demo_next_vnode = Comp 1 /\
  is_null (OldNode demo_unmounted_component) = false /\
  old_instance (OldNode demo_unmounted_component) = None /\
  Later.patch dom_options demo_components 1
    (OldNode demo_unmounted_component) demo_next_vnode (Some 1) dom_later
  = (Throw TypeError, dom_later).
Proof.
  split; [reflexivity|]. split; [reflexivity|]. split; [reflexivity|].
  exact (component_patch_without_instance_throws dom_options demo_components 0
           (OldNode demo_unmounted_component) demo_next_vnode 1 (Some 1) dom_later
           eq_refl eq_refl eq_refl).
Defined.

(** [<p>hi</p>] with the text as the payload of the element: the mount stops
    after the element is made; a patch against a mounted element stops before
    anything is done. *)
Lemma element_with_text_payload_throws_witness :
  type demo_text_p = Tag "p" /\
  children demo_text_p = ChildrenText "hi" /\
  String.length "hi" <> 0 /\
  Later.patch dom_options demo_components 1 OldNull demo_text_p (Some 0) dom_start
  = (Throw TypeError,
     mkState (mkDom 2 [] [] []) [OpCreateElement (Tag "p")] []) /\
  Later.patch dom_options demo_components 1 (OldNode demo_bare_div) demo_text_p
    (Some 0) dom_later
  = (Throw TypeError, dom_later).
Proof.
  assert (Hl : String.length "hi" <> 0) by (cbn; lia).
  split; [reflexivity|]. split; [reflexivity|]. split; [exact Hl|].
  destruct (element_with_text_payload_throws dom_options demo_components 0
              (OldNode demo_bare_div) demo_text_p "p" "hi" (Some 0) dom_start
              eq_refl eq_refl Hl) as [Hmount _].
  destruct (element_with_text_payload_throws dom_options demo_components 0
              (OldNode demo_bare_div) demo_text_p "p" "hi" (Some 0) dom_later
              eq_refl eq_refl Hl) as [_ Hpatch].
  split; [exact Hmount|exact (Hpatch eq_refl)].
Defined.

(** [<p id="x"></p>] with the empty text as its payload is mounted. *)
Lemma element_with_empty_text_payload_mounts_witness :
  type demo_empty_p = Tag "p" /\
  children demo_empty_p = ChildrenText "" /\
  Later.patch dom_options demo_components 1 OldNull demo_empty_p (Some 0) dom_start
  = (Ok (set_el demo_empty_p (Some 1)),
     mkState (mkDom 2 [(1, 0)] [] [(1, "id", VString "x")])
       [OpCreateElement (Tag "p"); OpPatchProp (Some 1) "id" (VString "x");
        OpInsert (Some 1) (Some 0)] []).
Proof.
  split; [reflexivity|]. split; [reflexivity|].
  exact (element_with_empty_text_payload_mounts dom_options demo_components 0
           demo_empty_p "p" (Some 0) dom_start eq_refl eq_refl).
Defined.

(** [<div><p>hi</p></div>]: the mount stops in the children, after the two
    elements are made. *)
Lemma failed_mount_stops_in_children_witness :
  type demo_div_of_text_p = Tag "div" /\
  Later.patch dom_options demo_components 2 OldNull demo_div_of_text_p (Some 0) dom_start
  = (Throw TypeError,
     mkState (mkDom 3 [] [] [])
       [OpCreateElement (Tag "div"); OpCreateElement (Tag "p")] []) /\
  exists node h1,
    createElement dom_options (Tag "div") (host dom_start) = (node, h1) /\
    mountChildren (Later.patch dom_options demo_components 1)
      (children demo_div_of_text_p) (Some node)
      (mkState h1 (trace dom_start ++ [OpCreateElement (Tag "div")])
         (instances dom_start))
    = (Throw TypeError,
       mkState (mkDom 3 [] [] [])
         [OpCreateElement (Tag "div"); OpCreateElement (Tag "p")] []).
Proof.
  split; [reflexivity|]. split; [reflexivity|].
  exact (failed_mount_stops_in_children dom_options demo_components 1
           demo_div_of_text_p "div" (Some 0) dom_start
           (mkState (mkDom 3 [] [] [])
              [OpCreateElement (Tag "div"); OpCreateElement (Tag "p")] [])
           TypeError eq_refl eq_refl).
Defined.

(** ** Props *)


(** ** Mount and update *)


(** The mount of [demo_app_div], a tree of two nodes. *)
Lemma mount_creates_and_inserts_every_node_witness :
  well_formed demo_app_div = true /\
  height demo_app_div <= 2 /\
  mounted demo_app_div dom_start
    (Later.patch dom_options demo_components 2 OldNull demo_app_div (Some 0) dom_start) /\
  mounted demo_app_div dom_start
    (Earlier.patch dom_options 2 OldNull demo_app_div (Some 0) dom_start).
Proof.
  split; [reflexivity|]. split; [cbn; lia|].
  exact (mount_creates_and_inserts_every_node dom_options demo_components 2
           demo_app_div (Some 0) dom_start eq_refl (le_n 2)).
Defined.

(** [demo_app_div] rendered a second time over its own mount. *)
Lemma rerender_of_same_tree_is_idle_witness :
  well_formed demo_app_div = true /\
  height demo_app_div <= 2 /\
  Later.patch dom_options demo_components 2 OldNull demo_app_div (Some 0) dom_start
    = (Ok demo_app_div_mounted, demo_app_state []) /\
  Later.patch dom_options demo_components 2 (OldNode demo_app_div_mounted)
    demo_app_div (Some 0) (demo_app_state [])
    = (Ok demo_app_div_mounted, demo_app_state []) /\
  Earlier.patch dom_options 2 OldNull demo_app_div (Some 0) dom_start
    = (Ok demo_app_div_mounted, demo_app_state []) /\
  Earlier.patch dom_options 2 (OldNode demo_app_div_mounted)
    demo_app_div (Some 0) (demo_app_state [])
    = (Ok demo_app_div_mounted, demo_app_state []).
Proof.
  split; [reflexivity|]. split; [cbn; lia|].
  destruct (rerender_of_same_tree_is_idle dom_options demo_components 2 2
              demo_app_div (Some 0) (Some 0) dom_start (demo_app_state [])
              (demo_app_state []) demo_app_div_mounted eq_refl (le_n 2))
    as [Hlater Hearlier].
  split; [reflexivity|]. split; [exact (Hlater eq_refl)|].
  split; [reflexivity|]. exact (Hearlier eq_refl).
Defined.

(** ** Components *)

(** The mount of component 0, which renders [demo_app_div]. *)
Lemma component_mount_mounts_its_render_witness :
  type demo_root_vnode = Comp 0 /\
  setup (demo_components 0) = Some (fun _ => demo_render0) /\
  well_formed (normalizeVNode (demo_render0 [])) = true /\
  height (normalizeVNode (demo_render0 [])) <= 2 /\
  exists m s1 d,
    Later.patch dom_options demo_components 3 OldNull demo_root_vnode (Some 0) dom_start
      = (Ok (set_el (set_component demo_root_vnode (Some 0)) (el m)),
         mkState (host s1) (trace s1)
           [mkInstance (Comp 0) (set_el (set_component demo_root_vnode (Some 0)) (el m))
              None [] (Some demo_render0) (Some m) true (Some (Some 0))]) /\
    trace s1 = d /\
    host_calls_only is_mount d /\
    count_calls is_create d = 2 /\
    count_calls is_insert d = 2 /\
    shaped demo_app_div m = true.
Proof.
  split; [reflexivity|]. split; [reflexivity|]. split; [reflexivity|].
  split; [cbn; lia|].
  exact (component_mount_mounts_its_render dom_options demo_components 2
           demo_root_vnode 0 (fun _ => demo_render0) (Some 0) dom_start
           eq_refl eq_refl eq_refl (le_n 2)).
Defined.


(** The root [render] of the earlier revision on [demo_root], and a further
    run of its effect. *)
Lemma earlier_render_then_rerun_witness :
  EarlierRoot.root_setup demo_root = Some (fun _ _ => demo_app_div) /\
  well_formed demo_app_div = true /\
  height demo_app_div <= 2 /\
  exists m s' d,
    EarlierRoot.render dom_options 2 demo_root (Some 0) dom_start = (Ok (OldNode m), s') /\
    trace s' = d /\
    host_calls_only is_mount d /\
    count_calls is_create d = 2 /\
    count_calls is_insert d = 2 /\
    EarlierRoot.updateComponent dom_options 2 (fun _ => demo_app_div) (Some 0)
      (OldNode m) s'
    = (Ok (OldNode m), s').
Proof.
  split; [reflexivity|]. split; [reflexivity|]. split; [cbn; lia|].
  exact (earlier_render_then_rerun dom_options 2 demo_root (fun _ _ => demo_app_div)
           (Some 0) dom_start eq_refl eq_refl (le_n 2)).
Defined.

(** ** Event listeners *)

(** Which keys are event keys. *)
Example isOn_keys :
  isOn "onClick" = true /\ isOn "on:click" = true /\ isOn "onclick" = false /\
  isOn "on" = false /\ isOn "only" = false /\ isOn "id" = false.
Proof. repeat split. Qed.

(** Two handlers for [onClick] one after the other, an attribute, a handler
    for [onInput], and [onClick] taken away twice: the DOM is called three
    times, the listener for "input" alone is left, and it calls the handler
    given for [onInput]. *)
Example event_run :
  let el :=
    patch_props ascii_lower (fun _ _ (a : unit) => a)
      [("onClick", VObject 1); ("onClick", VObject 2); ("id", VString "x");
       ("onInput", VObject 3); ("onClick", VNull); ("onClick", VNull)]
      (fresh_element tt) in
  dom_calls el
    = [DomAddEventListener "click" 0; DomAddEventListener "input" 1;
       DomRemoveEventListener "click" 0] /\
  listeners (dom_calls el) = [("input", 1)] /\
  handler_of el "onClick" = None /\
  handler_of el "onInput" = Some (VObject 3).
Proof. vm_compute. repeat split. Qed.
